(** * Marketplace settlement and the shared satchel

    A shallow embedding of two programs of the bootcamp repository:

    - the Move module [satchel::satchel] (a shared container of scrolls
      edited through a capability, with a borrow / return discipline), and
    - the TypeScript marketplace orchestrator [kiosk.ts] (kiosk lookup,
      listing lookup, royalty computation and the purchase settlement).

    Move functions taking [&mut SharedSatchel] are written in state-passing
    style and return [Exec]: either the new satchel and the result, or the
    abort code.  An abort reverts the transaction, so the satchel observed
    after an aborted call is the one before it ([after]). *)

From Stdlib Require Import QArith Qcanon DecimalString DecimalZ.
From Stdlib.Strings Require Import Byte Ascii.
From stdpp Require Import base option list strings numbers gmap pretty.

#[local] Close Scope Q_scope.
#[local] Close Scope Qc_scope.

Set Default Proof Using "Type".

(** ** The Move side: [satchel::satchel] *)

Module Satchel.

(** [0x2::object::ID] wraps an address (32 bytes); [UID] wraps an [ID]. *)
Definition ID := N.
Record UID := mkUID { uid_to_inner : ID }.

(** Outcome of a Move call: a value or an abort with its code. *)
Inductive Exec (A : Type) : Type :=
| Return (a : A)
| Abort (code : N).
Arguments Return {A} a.
Arguments Abort {A} code.

#[export] Instance exec_ret : MRet Exec := λ A a, Return a.
#[export] Instance exec_bind : MBind Exec := λ A B k m,
  match m with
  | Return a => k a
  | Abort c => Abort c
  end.

(** [assert!(cond, code)] *)
Definition assert (cond : bool) (code : N) : Exec unit :=
  if cond then Return tt else Abort code.

(** Error codes of the module. *)
Definition ENoScrollWithThisID : N := 0.
Definition ENotYourSatchel : N := 1.
Definition EInvalidReturn : N := 2.
Definition EExpectedFailure : N := 0xff.
(** [std::vector]'s abort code for an index out of bounds. *)
Definition EINDEX_OUT_OF_BOUNDS : N := 0x20000.
(** [std::option]'s abort code for [extract] on [none]. *)
Definition EOPTION_NOT_SET : N := 0x40001.

Record Scroll := mkScroll {
  scroll_uid : UID;
  name : string;
  effects : list string;
}.

Record SharedSatchel := mkSatchel {
  satchel_uid : UID;
  scrolls : list Scroll;
}.

Record SatchelCap := mkCap {
  cap_uid : UID;
  cap_satchel_id : ID;
}.

Record Borrow := mkBorrow {
  borrow_satchel_id : ID;
  borrow_scroll_id : ID;
}.

(** The [key] ability: an object has a [UID], and [object::id] reads it. *)
Class Key (T : Type) := object_uid : T → UID.
#[export] Instance scroll_key : Key Scroll := scroll_uid.
#[export] Instance satchel_key : Key SharedSatchel := satchel_uid.
#[export] Instance cap_key : Key SatchelCap := cap_uid.

Definition object_id `{Key T} (x : T) : ID := uid_to_inner (object_uid x).

#[export] Instance UID_eq_dec : EqDecision UID.
Proof. solve_decision. Defined.
#[export] Instance Scroll_eq_dec : EqDecision Scroll.
Proof. solve_decision. Defined.
#[export] Instance SharedSatchel_eq_dec : EqDecision SharedSatchel.
Proof. solve_decision. Defined.

(** [TxContext]: only the counter of created objects matters here.  The
    native address derivation is injective in that counter; the model
    uses the counter itself as the address. *)
Record TxContext := mkCtx { ids_created : N }.

Definition dummy : TxContext := mkCtx 0.

Definition object_new (ctx : TxContext) : UID * TxContext :=
  (mkUID (ids_created ctx), mkCtx (N.succ (ids_created ctx))).

(** *** Vector primitives used by the module *)

(** [vector::find_index!]: the first index whose element satisfies [f]. *)
Fixpoint find_index {T} (f : T → bool) (v : list T) : option nat :=
  match v with
  | [] => None
  | x :: v' => if f x then Some 0 else S <$> find_index f v'
  end.

(** [vector::remove]: aborts out of bounds, otherwise removes the element
    at [i] and shifts the rest down. *)
Definition vector_remove {T} (v : list T) (i : nat) : Exec (list T * T) :=
  match v !! i with
  | Some x => Return (delete i v, x)
  | None => Abort EINDEX_OUT_OF_BOUNDS
  end.

Definition vector_push_back {T} (v : list T) (x : T) : list T := v ++ [x].

(** [Option::extract] *)
Definition extract {T} (o : option T) : Exec T :=
  match o with
  | Some x => Return x
  | None => Abort EOPTION_NOT_SET
  end.

(** *** The entry points *)

Definition new (ctx : TxContext) : (SharedSatchel * SatchelCap) * TxContext :=
  let '(sid, ctx) := object_new ctx in
  let satchel := mkSatchel sid [] in
  let '(cid, ctx) := object_new ctx in
  let cap := mkCap cid (object_id satchel) in
  ((satchel, cap), ctx).

Definition has_id (scroll_id : ID) (scroll : Scroll) : bool :=
  bool_decide (object_id scroll = scroll_id).

Definition add_scroll (self : SharedSatchel) (cap : SatchelCap) (scroll : Scroll)
  : Exec (SharedSatchel * unit) :=
  _ ← assert (bool_decide (object_id self = cap_satchel_id cap)) ENotYourSatchel;
  Return (mkSatchel (satchel_uid self) (vector_push_back (scrolls self) scroll), tt).

Definition remove_scroll (self : SharedSatchel) (cap : SatchelCap) (scroll_id : ID)
  : Exec (SharedSatchel * Scroll) :=
  _ ← assert (bool_decide (object_id self = cap_satchel_id cap)) ENotYourSatchel;
  let idx := find_index (has_id scroll_id) (scrolls self) in
  _ ← assert (bool_decide (is_Some idx)) ENoScrollWithThisID;
  idx ← extract idx;
  '(rest, scroll) ← vector_remove (scrolls self) idx;
  Return (mkSatchel (satchel_uid self) rest, scroll).

Definition borrow_scroll (self : SharedSatchel) (scroll_id : ID)
  : Exec (SharedSatchel * (Scroll * Borrow)) :=
  let idx := find_index (has_id scroll_id) (scrolls self) in
  _ ← assert (bool_decide (is_Some idx)) ENoScrollWithThisID;
  idx ← extract idx;
  let borrow := mkBorrow (object_id self) scroll_id in
  '(rest, scroll) ← vector_remove (scrolls self) idx;
  Return (mkSatchel (satchel_uid self) rest, (scroll, borrow)).

Definition return_scroll (self : SharedSatchel) (scroll : Scroll) (borrow : Borrow)
  : Exec (SharedSatchel * unit) :=
  let '(mkBorrow satchel_id scroll_id) := borrow in
  _ ← assert (bool_decide (object_id self = satchel_id)) EInvalidReturn;
  _ ← assert (bool_decide (object_id scroll = scroll_id)) EInvalidReturn;
  Return (mkSatchel (satchel_uid self) (vector_push_back (scrolls self) scroll), tt).

(** The satchel seen on chain after a call on [self]: the new one when the
    call returns, the old one when it aborts. *)
Definition after {A} (self : SharedSatchel) (r : Exec (SharedSatchel * A)) : SharedSatchel :=
  match r with
  | Return (self', _) => self'
  | Abort _ => self
  end.

(** *** The unit tests of the module, run on the model *)

Definition healing (ctx : TxContext) : Scroll * TxContext :=
  let '(uid, ctx) := object_new ctx in
  (mkScroll uid "Scroll of Healing" ["Heals 10 HP"], ctx).

Definition stamina (ctx : TxContext) : Scroll * TxContext :=
  let '(uid, ctx) := object_new ctx in
  (mkScroll uid "Scroll of Stamina" ["Gives 10 STA"], ctx).

Definition test_satchel_editing : Exec unit :=
  let ctx := dummy in
  let '(scroll, ctx) := healing ctx in
  let '((_satchel1, cap1), ctx) := new ctx in
  let '((satchel2, _cap2), ctx) := new ctx in
  _ ← add_scroll satchel2 cap1 scroll;
  Abort EExpectedFailure.

Definition test_satchel_return : Exec unit :=
  let ctx := dummy in
  let '(scroll, ctx) := healing ctx in
  let scroll_id := object_id scroll in
  let '((satchel1, cap1), ctx) := new ctx in
  '(satchel1, _) ← add_scroll satchel1 cap1 scroll;
  '(satchel1, (scroll, borrow)) ← borrow_scroll satchel1 scroll_id;
  let '((satchel2, _cap2), ctx) := new ctx in
  _ ← return_scroll satchel2 scroll borrow;
  Abort EExpectedFailure.

Definition test_scroll_swap : Exec unit :=
  let ctx := dummy in
  let '(scroll1, ctx) := healing ctx in
  let '(scroll2, ctx) := stamina ctx in
  let scroll1_id := object_id scroll1 in
  let scroll2_id := object_id scroll2 in
  let '((satchel1, cap1), ctx) := new ctx in
  let '((satchel2, cap2), ctx) := new ctx in
  '(satchel1, _) ← add_scroll satchel1 cap1 scroll1;
  '(satchel2, _) ← add_scroll satchel2 cap2 scroll2;
  '(satchel1, (scroll1, borrow1)) ← borrow_scroll satchel1 scroll1_id;
  '(satchel2, (scroll2, borrow2)) ← borrow_scroll satchel2 scroll2_id;
  _ ← return_scroll satchel1 scroll2 borrow1;
  _ ← return_scroll satchel2 scroll1 borrow2;
  Abort EExpectedFailure.

(** *** Calls on a satchel, seen uniformly

    An entry point invoked by a caller who holds the capability [cap].
    [add_scroll] and [remove_scroll] receive the capability; the
    signatures of [borrow_scroll] and [return_scroll] have no capability
    parameter, so it is not passed on. *)

Inductive Op :=
| OpAdd (scroll : Scroll)
| OpRemove (scroll_id : ID)
| OpBorrow (scroll_id : ID)
| OpReturn (scroll : Scroll) (borrow : Borrow).

Inductive Output :=
| OutUnit
| OutScroll (scroll : Scroll)
| OutBorrowed (scroll : Scroll) (borrow : Borrow).

#[export] Instance exec_fmap : FMap Exec := λ A B f m,
  match m with
  | Return a => Return (f a)
  | Abort c => Abort c
  end.

Definition mutate_with (cap : SatchelCap) (op : Op) (self : SharedSatchel)
  : Exec (SharedSatchel * Output) :=
  match op with
  | OpAdd scroll => prod_map id (λ _, OutUnit) <$> add_scroll self cap scroll
  | OpRemove scroll_id => prod_map id OutScroll <$> remove_scroll self cap scroll_id
  | OpBorrow scroll_id =>
      prod_map id (λ '(scroll, borrow), OutBorrowed scroll borrow) <$> borrow_scroll self scroll_id
  | OpReturn scroll borrow => prod_map id (λ _, OutUnit) <$> return_scroll self scroll borrow
  end.

(** The identities of the scrolls in a satchel.  Object identities are
    unique on chain, and a scroll passed by value is not at the same time
    inside a satchel: [legal] records both facts for a call. *)
Definition scroll_ids (self : SharedSatchel) : list ID := object_id <$> scrolls self.

Definition unique_ids (self : SharedSatchel) : Prop := NoDup (scroll_ids self).

Definition legal (op : Op) (self : SharedSatchel) : Prop :=
  unique_ids self ∧
  match op with
  | OpAdd scroll | OpReturn scroll _ => object_id scroll ∉ scroll_ids self
  | OpRemove _ | OpBorrow _ => True
  end.

(** Two satchels hold the same contents when they are the same object and
    hold the same scrolls, in any order. *)
Definition same_contents (s1 s2 : SharedSatchel) : Prop :=
  satchel_uid s1 = satchel_uid s2 ∧ scrolls s1 ≡ₚ scrolls s2.

(** Outcomes that an observer cannot tell apart, up to [R] on the
    satchels left behind. *)
Definition same_outcome (R : relation SharedSatchel)
    (r1 r2 : Exec (SharedSatchel * Output)) : Prop :=
  match r1, r2 with
  | Return (s1, o1), Return (s2, o2) => o1 = o2 ∧ R s1 s2
  | Abort c1, Abort c2 => c1 = c2
  | _, _ => False
  end.

(** [R] is a bisimulation for the entry points of the module: related
    satchels answer every legal call alike and stay related. *)
Definition bisimulation (R : relation SharedSatchel) : Prop :=
  ∀ s1 s2 cap op, R s1 s2 → legal op s1 →
    legal op s2 ∧ same_outcome R (mutate_with cap op s1) (mutate_with cap op s2).

(** No sequence of legal calls tells [s1] from [s2]. *)
Definition indistinguishable (s1 s2 : SharedSatchel) : Prop :=
  ∃ R, bisimulation R ∧ R s1 s2.

End Satchel.

(** ** The TypeScript side: [kiosk.ts]

    [purchase] and [getKiosk] talk to a Sui node through [SuiClient].  The
    node is modelled by a [World]: the object store, keyed by object id,
    and the list of transactions submitted so far.  An [async] function
    that may throw becomes a function [World → Result A * World]. *)

Module Marketplace.

(** *** JavaScript numbers

    A [number] is [NaN] or an exact rational: the rounding of IEEE doubles
    is not modelled, and neither are the infinities.  The arithmetic is
    that of JavaScript on whole numbers of at most [2^53] and on their
    quotients by 10000; beyond, a double rounds where a rational does not,
    and the statements that depend on a value carry that bound.
    [parseInt] yields [NaN] or an integer, kept apart as [option Z] so
    that [toString] is only ever asked for such a value. *)

Inductive number :=
| NaN
| Num (q : Qc).

#[export] Instance number_eq_dec : EqDecision number.
Proof. solve_decision. Defined.

Definition of_integer (i : option Z) : number :=
  match i with
  | Some z => Num (Qc_of_Z z)
  | None => NaN
  end.

Definition num_binop (f : Qc → Qc → Qc) (a b : number) : number :=
  match a, b with
  | Num x, Num y => Num (f x y)
  | _, _ => NaN
  end.

Definition num_mul : number → number → number := num_binop Qcmult.

(** [a / b]; a zero divisor gives an infinity or [NaN] in JavaScript and
    [NaN] here: the only divisor in the program is the literal 10000. *)
Definition num_div (a b : number) : number :=
  match a, b with
  | Num x, Num y => if decide (y = Qc_of_Z 0) then NaN else Num (x / y)%Qc
  | _, _ => NaN
  end.

(** [Math.max(a, b)]: [NaN] as soon as one argument is. *)
Definition Math_max : number → number → number :=
  num_binop (λ x y, if Qclt_le_dec x y then y else x).

(** [parseInt(s)] without a radix: leading white space (the ASCII part
    of it), a sign, an optional [0x] prefix, then the longest run of
    digits.  The integer read is kept as it is written; JavaScript rounds
    one past [2^53] to the nearest double. *)
Definition is_white_space (c : ascii) : bool :=
  let n := N_of_ascii c in
  bool_decide (n = 9 ∨ n = 10 ∨ n = 11 ∨ n = 12 ∨ n = 13 ∨ n = 32)%N.

Definition digit_value (c : ascii) : option N :=
  let n := N_of_ascii c in
  if bool_decide (48 ≤ n ≤ 57)%N then Some (n - 48)%N
  else if bool_decide (97 ≤ n ≤ 122)%N then Some (n - 87)%N
  else if bool_decide (65 ≤ n ≤ 90)%N then Some (n - 55)%N
  else None.

Fixpoint trim_start (s : string) : string :=
  match s with
  | String c s' => if is_white_space c then trim_start s' else s
  | EmptyString => s
  end.

Fixpoint parse_digits (radix : N) (s : string) (acc : option N) : option N :=
  match s with
  | String c s' =>
      match digit_value c with
      | Some d =>
          if bool_decide (d < radix)%N
          then parse_digits radix s' (Some (default 0 acc * radix + d))%N
          else acc
      | None => acc
      end
  | EmptyString => acc
  end.

Definition strip_sign (s : string) : Z * string :=
  match s with
  | String "-" s' => ((-1)%Z, s')
  | String "+" s' => (1%Z, s')
  | _ => (1%Z, s)
  end.

Definition strip_radix (s : string) : N * string :=
  match s with
  | String "0" (String "x" s') | String "0" (String "X" s') => (16%N, s')
  | _ => (10%N, s)
  end.

Definition parseInt (s : string) : option Z :=
  let '(sign, s) := strip_sign (trim_start s) in
  let '(radix, s) := strip_radix s in
  n ← parse_digits radix s None;
  Some (sign * Z.of_N n)%Z.

(** [x.toString()] for the result of a [parseInt]: the decimal digits,
    which is what JavaScript prints up to [2^53]. *)
Definition toString (i : option Z) : string :=
  match i with
  | Some z => NilZero.string_of_int (Z.to_int z)
  | None => "NaN"
  end.

(** *** Values read from the node *)

Record KioskOwnerCapFields := {
  koc_for : string;
  koc_id : string;
}.

Record PersonalKioskCapFields := {
  pkc_id : string;
  pkc_cap : KioskOwnerCapFields;
}.

(** The name of a listing field: [0x2::kiosk::Listing]. *)
Record Listing := {
  listing_id : string;
  is_exclusive : bool;
}.

Record KioskListingFields := {
  klf_id : string;
  klf_name : Listing;
  klf_value : string;
}.

Record RoyaltyRuleConfig := {
  amount_bp : N;
  min_amount : string;
}.

Record RoyaltyRuleConfigDFFields := {
  rrc_id : string;
  rrc_value : RoyaltyRuleConfig;
}.

(** The parsed content of a Move object.  The program casts it with [as]
    to the shape it expects. *)
Inductive SuiParsedData :=
| KioskOwnerCapParsedData (fields : KioskOwnerCapFields)
| PersonalKioskCapParsedData (fields : PersonalKioskCapFields)
| KioskListingParsedData (fields : KioskListingFields)
| RoyaltyRuleConfigDFParsedData (fields : RoyaltyRuleConfigDFFields)
| OtherParsedData.

Record SuiObjectData := {
  objectId : string;
  content : SuiParsedData;
}.

(** [SuiObjectResponse]: [data] is absent when the object does not exist. *)
Record SuiObjectResponse := {
  data : option SuiObjectData;
}.

Record KioskData := {
  id : string;
  capId : string;
  isPersonal : bool;
}.

Inductive ExecutionStatus :=
| success
| failure.

#[export] Instance ExecutionStatus_eq_dec : EqDecision ExecutionStatus.
Proof. solve_decision. Defined.

Record SuiTransactionBlockResponse := {
  digest : string;
  effects : option ExecutionStatus;
}.

(** *** Transactions under construction *)

(** A Move call target [`${package}::${module}::${function}`]. *)
Record Target := {
  package : string;
  module : string;
  function : string;
}.

Definition target_string (t : Target) : string :=
  package t +:+ "::" +:+ module t +:+ "::" +:+ function t.

Inductive Argument :=
| GasCoin
| ObjectArg (id : string)
| PureAddress (a : string)
| PureU64 (n : number)
| NestedResult (command : nat) (index : nat).

#[export] Instance Argument_eq_dec : EqDecision Argument.
Proof. solve_decision. Defined.

(** An amount given to [splitCoins]: a string or a number. *)
Inductive Amount :=
| AmountString (s : string)
| AmountNumber (n : number).

Inductive Command :=
| SplitCoins (coin : Argument) (amounts : list Amount)
| MoveCall (target : Target) (arguments : list Argument) (typeArguments : list string)
| TransferObjects (objects : list Argument) (address : string).

Definition Transaction := list Command.

(** Building appends a command and hands back its index, from which the
    results of the command are addressed.  The commands are recorded with
    the values they are given: this builder does not encode them, and so
    never throws.  The SDK encodes an amount of [splitCoins] and the
    argument of [pure.u64] as u64 when the command is added; that check
    is the subject of [Encoded] below, where adding a command may throw. *)
Definition Builder (A : Type) : Type := Transaction → A * Transaction.

#[export] Instance builder_ret : MRet Builder := λ A a tx, (a, tx).
#[export] Instance builder_bind : MBind Builder := λ A B k m tx,
  let '(a, tx) := m tx in k a tx.

Definition add_command (c : Command) : Builder nat :=
  λ tx, (length tx, tx ++ [c]).

Definition splitCoins (coin : Argument) (amounts : list Amount) : Builder nat :=
  add_command (SplitCoins coin amounts).

Definition moveCall (target : Target) (arguments : list Argument)
    (typeArguments : list string) : Builder nat :=
  add_command (MoveCall target arguments typeArguments).

Definition build {A} (b : Builder A) : Transaction := (b []).2.

(** *** The node *)

Inductive Owner :=
| AddressOwner (address : string)
| ObjectOwner (parent : string)
| Shared.

#[export] Instance Owner_eq_dec : EqDecision Owner.
Proof. solve_decision. Defined.

Record StoredObject := {
  owner : Owner;
  struct_type : string;
  stored_content : SuiParsedData;
}.

Record World := {
  objects : gmap string StoredObject;
  submitted : list (Transaction * string);
}.

Inductive Error :=
| NoKioskForAddress (address : string)
| NeedPersonalKiosk
| ListingNotFound (swordId fromKioskObjectId : string)
| RoyaltyConfigNotFound (policyId : string)
| PurchaseFailed (resp : SuiTransactionBlockResponse)
| CreateKioskFailed (resp : SuiTransactionBlockResponse)
| PlaceAndListFailed (resp : SuiTransactionBlockResponse)
| TypeError
| NotU64 (value : Amount).

(** The text of the thrown [Error]; for the three failures that dump the
    response as JSON, the text before the dump.  [NotU64] is the error of
    the transaction builder for a value that is no u64; its text belongs
    to the SDK and is left empty. *)
Definition message (e : Error) : string :=
  match e with
  | NoKioskForAddress a => "No kiosk for address " +:+ a
  | NeedPersonalKiosk => "You need a PersonalKiosk to buy this item"
  | ListingNotFound swordId from =>
      "Could not find Listing for item " +:+ swordId +:+ " under kiosk " +:+ from
  | RoyaltyConfigNotFound policy =>
      "Could not find royalty rule config in policy: " +:+ policy
  | PurchaseFailed _ => "Something went wrong purchasing:"
  | CreateKioskFailed _ => "Something went wrong creating kiosk:"
  | PlaceAndListFailed _ => "Something went wrong placing and listing:"
  | TypeError => "TypeError"
  | NotU64 _ => ""
  end.

Inductive Result (A : Type) : Type :=
| Ok (a : A)
| Throw (e : Error).
Arguments Ok {A} a.
Arguments Throw {A} e.

Definition Rpc (A : Type) : Type := World → Result A * World.

#[export] Instance rpc_ret : MRet Rpc := λ A a w, (Ok a, w).
#[export] Instance rpc_bind : MBind Rpc := λ A B k m w,
  match m w with
  | (Ok a, w') => k a w'
  | (Throw e, w') => (Throw e, w')
  end.

Definition throw {A} (e : Error) : Rpc A := λ w, (Throw e, w).

(** What the program takes from outside its own file: the identifiers of
    [PublishSingleton] (module [./publish]), two functions of the Sui SDK,
    and the ledger that executes a submitted transaction. *)
Class Environment := {
  packageId : string;
  rulesPackageId : string;
  policyId : string;
  bcs_Address : string → list Byte.byte;
  deriveDynamicFieldID : string → string → list Byte.byte → string;
  execute : Transaction → string → gmap string StoredObject →
            SuiTransactionBlockResponse * gmap string StoredObject;
}.

Section client.
Context `{Environment}.

(** [client.getOwnedObjects({owner, filter: {StructType}, limit: 1})] *)
Definition owned_by (address : string) (ty : string) (entry : string * StoredObject) : bool :=
  bool_decide (owner entry.2 = AddressOwner address ∧ struct_type entry.2 = ty).

Definition getOwnedObjects (address : string) (ty : string) : Rpc (list SuiObjectResponse) :=
  λ w,
    let found := filter (λ e, owned_by address ty e = true) (map_to_list (objects w)) in
    (Ok ((λ e, {| data := Some {| objectId := e.1; content := stored_content e.2 |} |})
           <$> take 1 found), w).

(** [client.getObject({id})] *)
Definition getObject (id : string) : Rpc SuiObjectResponse :=
  λ w,
    (Ok {| data := (λ o, {| objectId := id; content := stored_content o |})
                     <$> objects w !! id |}, w).

(** [client.signAndExecuteTransaction({transaction, signer})] *)
Definition signAndExecuteTransaction (transaction : Transaction) (signer : string)
  : Rpc SuiTransactionBlockResponse :=
  λ w,
    let '(resp, objects') := execute transaction signer (objects w) in
    (Ok resp, {| objects := objects'; submitted := submitted w ++ [(transaction, signer)] |}).

(** [client.waitForTransaction({digest})] *)
Definition waitForTransaction (digest : string) : Rpc unit := mret tt.

(** The casts [data.content as ...]: reading a field of another shape
    is a [TypeError]. *)
Definition as_PersonalKioskCap (c : SuiParsedData) : Rpc PersonalKioskCapFields :=
  match c with PersonalKioskCapParsedData f => mret f | _ => throw TypeError end.

Definition as_KioskOwnerCap (c : SuiParsedData) : Rpc KioskOwnerCapFields :=
  match c with KioskOwnerCapParsedData f => mret f | _ => throw TypeError end.

Definition as_KioskListing (c : SuiParsedData) : Rpc KioskListingFields :=
  match c with KioskListingParsedData f => mret f | _ => throw TypeError end.

Definition as_RoyaltyRuleConfigDF (c : SuiParsedData) : Rpc RoyaltyRuleConfigDFFields :=
  match c with RoyaltyRuleConfigDFParsedData f => mret f | _ => throw TypeError end.

(** BCS of a struct: its fields in order; a [bool] is one byte. *)
Definition bcs_bool (b : bool) : list Byte.byte :=
  [if b then Byte.x01 else Byte.x00].

Definition bcs_Listing (l : Listing) : list Byte.byte :=
  bcs_Address (listing_id l) ++ bcs_bool (is_exclusive l).

Definition PersonalKioskCap_type : string :=
  rulesPackageId +:+ "::personal_kiosk::PersonalKioskCap".

Definition KioskOwnerCap_type : string := "0x2::kiosk::KioskOwnerCap".

Definition Sword_type : string := packageId +:+ "::sword::Sword".

Definition ruleConfigKeyType : string :=
  "0x2::transfer_policy::RuleKey<" +:+ rulesPackageId +:+ "::royalty_rule::Rule>".

Definition listing_field_id (fromKioskObjectId swordId : string) (exclusive : bool) : string :=
  deriveDynamicFieldID fromKioskObjectId "0x2::kiosk::Listing"
    (bcs_Listing {| listing_id := swordId; is_exclusive := exclusive |}).

Definition royalty_field_id : string :=
  deriveDynamicFieldID policyId ruleConfigKeyType (bcs_bool false).

(** *** [getKiosk] *)

Definition getKiosk (owner : string) (isPersonal : bool) : Rpc (option KioskData) :=
  resp ← getOwnedObjects owner
            (if isPersonal then PersonalKioskCap_type else KioskOwnerCap_type);
  match head resp ≫= data with
  | None => mret None
  | Some data =>
      if isPersonal then
        content ← as_PersonalKioskCap (content data);
        mret (Some {| id := koc_for (pkc_cap content);
                      capId := objectId data;
                      isPersonal := false |})
      else
        content ← as_KioskOwnerCap (content data);
        mret (Some {| id := koc_for content;
                      capId := objectId data;
                      isPersonal := false |})
  end.

(** *** [createKiosk], [createPersonalKiosk] and [placeAndListInKiosk] *)

Definition kiosk_target (f : string) : Target :=
  {| package := "0x2"; module := "kiosk"; function := f |}.

Definition rules_target (m f : string) : Target :=
  {| package := rulesPackageId; module := m; function := f |}.

Definition transferObjects (objs : list Argument) (address : string) : Builder nat :=
  add_command (TransferObjects objs address).

Definition createKiosk (signer : string) : Rpc SuiTransactionBlockResponse :=
  let transaction :=
    build (created ← moveCall (kiosk_target "new") [] [];
           let kiosk := NestedResult created 0 in
           let cap := NestedResult created 1 in
           _ ← moveCall {| package := "0x2"; module := "transfer";
                           function := "public_share_object" |}
                 [kiosk] ["0x2::kiosk::Kiosk"];
           _ ← transferObjects [cap] signer;
           mret tt) in
  resp ← signAndExecuteTransaction transaction signer;
  if bool_decide (effects resp = Some success) then
    _ ← waitForTransaction (digest resp);
    mret resp
  else throw (CreateKioskFailed resp).

Definition createPersonalKiosk (signer : string) : Rpc SuiTransactionBlockResponse :=
  let transaction :=
    build (created ← moveCall (kiosk_target "new") [] [];
           let kiosk := NestedResult created 0 in
           let cap := NestedResult created 1 in
           wrapped ← moveCall (rules_target "personal_kiosk" "new") [kiosk; cap] [];
           let pcap := NestedResult wrapped 0 in
           _ ← moveCall (rules_target "personal_kiosk" "transfer_to_sender") [pcap] [];
           _ ← moveCall {| package := "0x2"; module := "transfer";
                           function := "public_share_object" |}
                 [kiosk] ["0x2::kiosk::Kiosk"];
           mret tt) in
  resp ← signAndExecuteTransaction transaction signer;
  if bool_decide (effects resp = Some success) then
    _ ← waitForTransaction (digest resp);
    mret resp
  else throw (CreateKioskFailed resp).

(** The price is recorded as given; [Encoded.placeAndListInKiosk] has the
    check of [pure.u64] on it. *)
Definition placeAndListInKiosk (signer : string) (kiosk : option KioskData)
    (swordId : string) (price : number) : Rpc SuiTransactionBlockResponse :=
  (* Find owned kiosk if not given *)
  kiosk ← match kiosk with
          | Some k => mret (Some k)
          | None => getKiosk signer false
          end;
  match kiosk with
  | None => throw (NoKioskForAddress signer)
  | Some kiosk =>
      let transaction :=
        build (_ ← moveCall (kiosk_target "place_and_list")
                     [ObjectArg (id kiosk); ObjectArg (capId kiosk);
                      ObjectArg swordId; PureU64 price]
                     [Sword_type];
               mret tt) in
      resp ← signAndExecuteTransaction transaction signer;
      if bool_decide (effects resp = Some success) then
        _ ← waitForTransaction (digest resp);
        mret resp
      else throw (PlaceAndListFailed resp)
  end.

(** *** [purchase] *)

Definition royaltiesAmount (price : option Z) (royalties : RoyaltyRuleConfig) : number :=
  Math_max
    (num_div (num_mul (of_integer price) (Num (Qc_of_Z (Z.of_N (amount_bp royalties)))))
             (Num (Qc_of_Z 10000)))
    (of_integer (parseInt (min_amount royalties))).

(** The part of [purchase] from [new Transaction()] to the last
    [moveCall]: the commands in their order, with the two amounts
    recorded as given.  [Encoded.purchase_transaction] has the check of
    [splitCoins] on them. *)
Definition purchase_transaction (buyerKiosk : KioskData)
    (fromKioskObjectId swordId : string) (price : option Z) (royalty : number)
  : Builder unit :=
  coins ← splitCoins GasCoin [AmountString (toString price); AmountNumber royalty];
  let payment := NestedResult coins 0 in
  let royaltiesPayment := NestedResult coins 1 in
  bought ← moveCall (kiosk_target "purchase")
             [ObjectArg fromKioskObjectId; PureAddress swordId; payment]
             [Sword_type];
  let sword := NestedResult bought 0 in
  let request := NestedResult bought 1 in
  (* Lock the sword in our personal kiosk *)
  let personalCapArg := ObjectArg (capId buyerKiosk) in
  borrowed ← moveCall (rules_target "personal_kiosk" "borrow_val") [personalCapArg] [];
  let cap := NestedResult borrowed 0 in
  let potato := NestedResult borrowed 1 in
  let buyerKioskArg := ObjectArg (id buyerKiosk) in
  _ ← moveCall (kiosk_target "lock")
        [buyerKioskArg; cap; ObjectArg policyId; sword] [Sword_type];
  _ ← moveCall (rules_target "personal_kiosk" "return_val")
        [personalCapArg; cap; potato] [];
  (* Prove lock rule *)
  _ ← moveCall (rules_target "kiosk_lock_rule" "prove")
        [request; buyerKioskArg] [Sword_type];
  (* Prove personal kiosk rule *)
  _ ← moveCall (rules_target "personal_kiosk_rule" "prove")
        [buyerKioskArg; request] [Sword_type];
  (* Pay royalties *)
  _ ← moveCall (rules_target "royalty_rule" "pay")
        [ObjectArg policyId; request; royaltiesPayment] [Sword_type];
  (* Resolve TransferRequest *)
  _ ← moveCall {| package := "0x2"; module := "transfer_policy";
                  function := "confirm_request" |}
        [ObjectArg policyId; request] [Sword_type];
  mret tt.

Definition purchase (signer fromKioskObjectId swordId : string)
  : Rpc SuiTransactionBlockResponse :=
  (* Get the signer Kiosk to lock the sword at *)
  buyerKiosk ← getKiosk signer true;
  match buyerKiosk with
  | None => throw NeedPersonalKiosk
  | Some buyerKiosk =>
      (* Find the kiosk Listing *)
      let dfId := listing_field_id fromKioskObjectId swordId false in
      dfResp ← getObject dfId;
      match data dfResp with
      | None => throw (ListingNotFound swordId fromKioskObjectId)
      | Some dfData =>
          listingContent ← as_KioskListing (content dfData);
          let price := parseInt (klf_value listingContent) in
          (* Royalties *)
          royaltyConfigResp ← getObject royalty_field_id;
          match data royaltyConfigResp with
          | None => throw (RoyaltyConfigNotFound policyId)
          | Some royaltyData =>
              royaltyContent ← as_RoyaltyRuleConfigDF (content royaltyData);
              let royalties := rrc_value royaltyContent in
              let royalty := royaltiesAmount price royalties in
              let transaction :=
                build (purchase_transaction buyerKiosk fromKioskObjectId swordId
                         price royalty) in
              resp ← signAndExecuteTransaction transaction signer;
              if bool_decide (effects resp = Some success) then
                _ ← waitForTransaction (digest resp);
                mret resp
              else throw (PurchaseFailed resp)
          end
      end
  end.

(** *** Reading a built transaction *)

(** What [BigInt] makes of an amount when the transaction is encoded. *)
Definition amount_value (a : Amount) : number :=
  match a with
  | AmountString s => of_integer (Z.of_int <$> NilZero.int_of_string s)
  | AmountNumber n => n
  end.


Definition move_calls (tx : Transaction) : list Target :=
  tx ≫= λ c, match c with MoveCall t _ _ => [t] | _ => [] end.

(** The steps of a settlement. *)
Inductive Step :=
| StepPurchase
| StepBorrow
| StepLock
| StepRestore
| StepProve (rule : string)
| StepConfirm.

(** A call is recognised by its module and function, and by whether its
    package is the framework ([0x2]) or the rules package. *)
Definition classify_with (framework rules : bool) (m f : string) : option Step :=
  if framework && String.eqb m "kiosk" && String.eqb f "purchase"
  then Some StepPurchase
  else if framework && String.eqb m "kiosk" && String.eqb f "lock"
  then Some StepLock
  else if framework && String.eqb m "transfer_policy" && String.eqb f "confirm_request"
  then Some StepConfirm
  else if rules && String.eqb m "personal_kiosk" && String.eqb f "borrow_val"
  then Some StepBorrow
  else if rules && String.eqb m "personal_kiosk" && String.eqb f "return_val"
  then Some StepRestore
  else if rules && (String.eqb f "prove" || String.eqb f "pay")
  then Some (StepProve m)
  else None.

Definition classify (t : Target) : option Step :=
  classify_with (bool_decide (package t = "0x2"))
                (bool_decide (package t = rulesPackageId))
                (module t) (function t).

Definition steps (tx : Transaction) : list Step :=
  omap classify (move_calls tx).

(** *** Notions used to state the facts *)

(** The capability type [getKiosk] filters on. *)
Definition cap_type (isPersonal : bool) : string :=
  if isPersonal then PersonalKioskCap_type else KioskOwnerCap_type.

(** [address] owns no object of type [ty]. *)
Definition holds_none (w : World) (address ty : string) : Prop :=
  map_Forall (λ _ o, ¬ (owner o = AddressOwner address ∧ struct_type o = ty))
             (objects w).

(** The transaction [purchase] builds for a buyer kiosk, a listing and
    a royalty configuration. *)
Definition settlement (k : KioskData) (fromKioskObjectId swordId : string)
    (lf : KioskListingFields) (rc : RoyaltyRuleConfigDFFields) : Transaction :=
  build (purchase_transaction k fromKioskObjectId swordId (parseInt (klf_value lf))
           (royaltiesAmount (parseInt (klf_value lf)) (rrc_value rc))).
End client.


End Marketplace.

(** ** The transfer policy

    [purchase] ends its settlement with calls into the rule modules and
    into [0x2::transfer_policy::confirm_request].  Those modules are
    deployed code the sources only call; their behaviour is taken from
    the specification. *)

Module TransferPolicy.

(** Modelled from the spec: the transfer policy of an asset type, which
    is missing from the sources; it holds the set of registered rules, a
    rule being named by the module that implements it. *)
Record TransferPolicy := {
  rules : gset string;
}.

(** Modelled from the spec: the transfer request created at purchase
    time, missing from the sources; it holds the asset, the price paid and
    one marker per satisfied rule. *)
Record TransferRequest := {
  item : string;
  paid : Z;
  satisfied : gset string;
}.

Inductive PolicyError :=
| IncompleteRuleError.

(** Modelled from the spec: [purchase] of the escrow container, missing
    from the sources, creates the request with no rule satisfied. *)
Definition new_request (item : string) (paid : Z) : TransferRequest :=
  {| item := item; paid := paid; satisfied := ∅ |}.

(** Modelled from the spec: [prove] of a rule, missing from the sources,
    sets the marker of that rule on the request. *)
Definition prove (rule : string) (request : TransferRequest) : TransferRequest :=
  {| item := item request; paid := paid request;
     satisfied := {[rule]} ∪ satisfied request |}.

(** Modelled from the spec: [confirmRequest], missing from the sources,
    succeeds only if the satisfied set is the full registered rule set of
    the policy, and otherwise fails with IncompleteRuleError. *)
Definition confirmRequest (policy : TransferPolicy) (request : TransferRequest)
  : PolicyError + unit :=
  if decide (satisfied request = rules policy) then inr tt
  else inl IncompleteRuleError.

(** Modelled from the spec: a settlement is one atomic unit, missing from
    the sources as an executor; its effects reach the ledger only when its
    last step, the confirmation, succeeds, and otherwise the ledger stays
    at its state before the attempt. *)
Definition finalize {Ledger : Type} (effects : Ledger → Ledger)
    (policy : TransferPolicy) (request : TransferRequest) (ledger : Ledger) : Ledger :=
  match confirmRequest policy request with
  | inr _ => effects ledger
  | inl _ => ledger
  end.

(** The request as it reaches the confirmation of a settlement: the rules
    are proven in the order of the steps. *)
Definition proven (steps : list Marketplace.Step) : list string :=
  steps ≫= λ s, match s with Marketplace.StepProve rule => [rule] | _ => [] end.

Definition request_after (steps : list Marketplace.Step) (request : TransferRequest)
  : TransferRequest :=
  foldl (λ r rule, prove rule r) request (proven steps).

End TransferPolicy.

(** ** Sample data

    A concrete environment and a few worlds on which the definitions are
    run.  The derived field id is an injective encoding of its three
    arguments, and the ledger accepts every transaction and leaves the
    store as it is. *)

Module Samples.
Import Marketplace.

Definition sample_env : Environment := {|
  packageId := "0xa11ce";
  rulesPackageId := "0x7001";
  policyId := "0x9011c7";
  bcs_Address := String.list_byte_of_string;
  deriveDynamicFieldID parent ty key :=
    pretty (encode (parent, ty, Byte.to_N <$> key));
  execute tx signer objs := ({| digest := "Dg1"; effects := Some success |}, objs);
|}.

Definition buyer : string := "0xb0b".
Definition seller_kiosk : string := "0x5e11e7".
Definition sword : string := "0x5307d".

Definition buyer_cap : StoredObject := {|
  owner := AddressOwner buyer;
  struct_type := @PersonalKioskCap_type sample_env;
  stored_content := PersonalKioskCapParsedData
    {| pkc_id := "0xca9";
       pkc_cap := {| koc_for := "0xb0b5"; koc_id := "0x1e" |} |};
|}.

Definition listing_object (exclusive : bool) (value : string) : StoredObject := {|
  owner := ObjectOwner seller_kiosk;
  struct_type := "0x2::dynamic_field::Field<0x2::kiosk::Listing, u64>";
  stored_content := KioskListingParsedData
    {| klf_id := @listing_field_id sample_env seller_kiosk sword exclusive;
       klf_name := {| listing_id := sword; is_exclusive := exclusive |};
       klf_value := value |};
|}.

Definition royalty_object (bp : N) (minimum : string) : StoredObject := {|
  owner := ObjectOwner (@policyId sample_env);
  struct_type := "0x2::dynamic_field::Field";
  stored_content := RoyaltyRuleConfigDFParsedData
    {| rrc_id := @royalty_field_id sample_env;
       rrc_value := {| amount_bp := bp; min_amount := minimum |} |};
|}.

(** The buyer holds a personal kiosk, the sword is listed for 100 and the
    royalty rule asks for 2% and at least 5. *)
Definition market : World := {|
  objects :=
    <["0xca9" := buyer_cap]>
    (<[@listing_field_id sample_env seller_kiosk sword false := listing_object false "100"]>
    (<[@royalty_field_id sample_env := royalty_object 200 "5"]> ∅));
  submitted := [];
|}.

(** The same market with the listing stored under the exclusive key. *)
Definition exclusive_market : World := {|
  objects :=
    <["0xca9" := buyer_cap]>
    (<[@listing_field_id sample_env seller_kiosk sword true := listing_object true "100"]>
    (<[@royalty_field_id sample_env := royalty_object 200 "5"]> ∅));
  submitted := [];
|}.

(** A market whose buyer holds no capability at all. *)
Definition market_without_buyer_kiosk : World := {|
  objects :=
    <[@listing_field_id sample_env seller_kiosk sword false := listing_object false "100"]>
    (<[@royalty_field_id sample_env := royalty_object 200 "5"]> ∅);
  submitted := [];
|}.

(** A market in which nothing is listed. *)
Definition empty_market : World := {|
  objects :=
    <["0xca9" := buyer_cap]>
    (<[@royalty_field_id sample_env := royalty_object 200 "5"]> ∅);
  submitted := [];
|}.

(** What [getKiosk] reports for the buyer of [market]. *)
Definition sample_kiosk : KioskData :=
  {| id := "0xb0b5"; capId := "0xca9"; isPersonal := false |}.

(** A satchel with two scrolls, its capability, the capability of another
    satchel, and a scroll that is in nobody's satchel. *)
Definition healing_scroll : Satchel.Scroll :=
  Satchel.mkScroll (Satchel.mkUID 10%N) "Scroll of Healing" ["Heals 10 HP"].

Definition stamina_scroll : Satchel.Scroll :=
  Satchel.mkScroll (Satchel.mkUID 11%N) "Scroll of Stamina" ["Gives 10 STA"].

Definition haste_scroll : Satchel.Scroll :=
  Satchel.mkScroll (Satchel.mkUID 12%N) "Scroll of Haste" ["Gives 5 SPD"].

Definition my_satchel : Satchel.SharedSatchel :=
  Satchel.mkSatchel (Satchel.mkUID 1%N) [healing_scroll; stamina_scroll].

Definition my_cap : Satchel.SatchelCap := Satchel.mkCap (Satchel.mkUID 2%N) 1%N.

Definition other_cap : Satchel.SatchelCap := Satchel.mkCap (Satchel.mkUID 4%N) 3%N.

End Samples.

(** ** Further notions and sample data *)

Module Notions.
Import Marketplace.

(** The arguments of a command that may name a result. *)
Definition command_arguments (c : Command) : list Argument :=
  match c with
  | SplitCoins coin _ => [coin]
  | MoveCall _ arguments _ => arguments
  | TransferObjects objs _ => objs
  end.

(** A result may be used only by a later command. *)
Definition argument_in_scope (position : nat) (a : Argument) : bool :=
  match a with
  | NestedResult command _ => bool_decide (command < position)
  | _ => true
  end.

Definition well_scoped (tx : Transaction) : bool :=
  forallb (λ b : bool, b)
    (imap (λ position c, forallb (argument_in_scope position) (command_arguments c)) tx).


(** No two lookups of the derivation collide, and an address has one
    encoding. *)
Definition collision_free `{Environment} : Prop :=
  ∀ p t k p' t' k',
    deriveDynamicFieldID p t k = deriveDynamicFieldID p' t' k' →
    p = p' ∧ t = t' ∧ k = k'.

Definition addresses_distinct `{Environment} : Prop :=
  ∀ a a', bcs_Address a = bcs_Address a' → a = a'.

(** The transactions built by [placeAndListInKiosk], [createKiosk] and
    [createPersonalKiosk], written out. *)
Definition place_and_list `{Environment} (k : KioskData) (sword : string) (price : number) : Transaction :=
  [MoveCall (kiosk_target "place_and_list")
     [ObjectArg (id k); ObjectArg (capId k); ObjectArg sword; PureU64 price]
     [Sword_type]].

Definition createKiosk_transaction (signer : string) : Transaction :=
  [MoveCall (kiosk_target "new") [] [];
   MoveCall {| package := "0x2"; module := "transfer"; function := "public_share_object" |}
     [NestedResult 0 0] ["0x2::kiosk::Kiosk"];
   TransferObjects [NestedResult 0 1] signer].

Definition createPersonalKiosk_transaction `{Environment} : Transaction :=
  [MoveCall (kiosk_target "new") [] [];
   MoveCall (rules_target "personal_kiosk" "new") [NestedResult 0 0; NestedResult 0 1] [];
   MoveCall (rules_target "personal_kiosk" "transfer_to_sender") [NestedResult 1 0] [];
   MoveCall {| package := "0x2"; module := "transfer"; function := "public_share_object" |}
     [NestedResult 0 0] ["0x2::kiosk::Kiosk"]].

(** The sample environment with a ledger that rejects every transaction. *)
Definition rejecting_env : Environment := {|
  packageId := "0xa11ce";
  rulesPackageId := "0x7001";
  policyId := "0x9011c7";
  bcs_Address := String.list_byte_of_string;
  deriveDynamicFieldID parent ty key :=
    pretty (encode (parent, ty, Byte.to_N <$> key));
  execute tx signer objs := ({| digest := "Dg2"; effects := Some failure |}, objs);
|}.

(** The sample market without the royalty configuration. *)
Definition market_without_royalty : World := {|
  objects :=
    <["0xca9" := Samples.buyer_cap]>
    (<[@listing_field_id Samples.sample_env Samples.seller_kiosk Samples.sword false
       := Samples.listing_object false "100"]> ∅);
  submitted := [];
|}.

(** A seller who holds the plain capability of a kiosk. *)
Definition seller : string := "0x5e11e4".

Definition seller_cap : StoredObject := {|
  owner := AddressOwner seller;
  struct_type := "0x2::kiosk::KioskOwnerCap";
  stored_content := KioskOwnerCapParsedData
    {| koc_for := Samples.seller_kiosk; koc_id := "0x5ca9" |};
|}.

Definition seller_world : World := {|
  objects := <["0x5ca9" := seller_cap]> (<["0xca9" := Samples.buyer_cap]> ∅);
  submitted := [];
|}.

Definition seller_kiosk_data : KioskData :=
  {| id := Samples.seller_kiosk; capId := "0x5ca9"; isPersonal := false |}.

End Notions.

(** ** The transaction builder's u64 encoding

    [Marketplace.splitCoins] and [PureU64] take any amount.  The builder of
    the SDK encodes the amounts of [splitCoins] and the argument of
    [pure.u64] as u64 at the moment the command is added, and throws when
    the value is no u64: a fraction, [NaN], a negative number or one past
    [2^64 - 1].  The functions of this module are [purchase] and
    [placeAndListInKiosk] with that encoding in place; they are the ones to
    read when an amount may fail to be a u64.  Object ids and addresses
    are taken as they are given, as in [Marketplace]. *)

Module Encoded.
Import Marketplace.

(** The whole numbers on which the exact arithmetic of [number] is the
    arithmetic of JavaScript: those of at most [2^53], which a double
    holds exactly. *)
Definition exactly_representable (z : Z) : Prop := (0 ≤ z ≤ 2 ^ 53)%Z.


(** A number that [BigInt] converts and that fits 64 bits. *)
Definition is_u64 (n : number) : bool :=
  match n with
  | Num q =>
      bool_decide (Qden (Qcanon.this q) = 1%positive
                   ∧ (0 ≤ Qnum (Qcanon.this q) < 2 ^ 64)%Z)
  | NaN => false
  end.

(** A transaction under construction, where adding a command may throw. *)
Definition Builder (A : Type) : Type := Transaction → Result (A * Transaction).

#[export] Instance builder_ret : MRet Builder := λ A a tx, Ok (a, tx).
#[export] Instance builder_bind : MBind Builder := λ A B k m tx,
  match m tx with
  | Ok (a, tx') => k a tx'
  | Throw e => Throw e
  end.

(** [transaction.pure.u64(n)] *)
Definition pure_u64 (n : number) : Builder Argument :=
  λ tx, if is_u64 n then Ok (PureU64 n, tx) else Throw (NotU64 (AmountNumber n)).

(** [transaction.splitCoins(coin, amounts)]: the amounts are encoded in
    their order, and the first that is no u64 stops the call.  A string
    is read by [amount_value] as decimal digits, which is how [purchase]
    prints the one it passes. *)
Definition splitCoins (coin : Argument) (amounts : list Amount) : Builder nat :=
  λ tx,
    match List.find (λ a, negb (is_u64 (amount_value a))) amounts with
    | Some a => Throw (NotU64 a)
    | None => Ok (Marketplace.splitCoins coin amounts tx)
    end.

(** [transaction.moveCall(...)] encodes nothing by itself. *)
Definition moveCall (target : Target) (arguments : list Argument)
    (typeArguments : list string) : Builder nat :=
  λ tx, Ok (Marketplace.moveCall target arguments typeArguments tx).

Definition build {A} (b : Builder A) : Result Transaction :=
  match b [] with
  | Ok (_, tx) => Ok tx
  | Throw e => Throw e
  end.

Section client.
Context `{Environment}.

Definition placeAndListInKiosk (signer : string) (kiosk : option KioskData)
    (swordId : string) (price : number) : Rpc SuiTransactionBlockResponse :=
  (* Find owned kiosk if not given *)
  kiosk ← match kiosk with
          | Some k => mret (Some k)
          | None => getKiosk signer false
          end;
  match kiosk with
  | None => throw (NoKioskForAddress signer)
  | Some kiosk =>
      match build (amount ← pure_u64 price;
                   _ ← moveCall (kiosk_target "place_and_list")
                         [ObjectArg (id kiosk); ObjectArg (capId kiosk);
                          ObjectArg swordId; amount]
                         [Sword_type];
                   mret tt) with
      | Throw e => throw e
      | Ok transaction =>
          resp ← signAndExecuteTransaction transaction signer;
          if bool_decide (effects resp = Some success) then
            _ ← waitForTransaction (digest resp);
            mret resp
          else throw (PlaceAndListFailed resp)
      end
  end.

Definition purchase_transaction (buyerKiosk : KioskData)
    (fromKioskObjectId swordId : string) (price : option Z) (royalty : number)
  : Builder unit :=
  coins ← splitCoins GasCoin [AmountString (toString price); AmountNumber royalty];
  let payment := NestedResult coins 0 in
  let royaltiesPayment := NestedResult coins 1 in
  bought ← moveCall (kiosk_target "purchase")
             [ObjectArg fromKioskObjectId; PureAddress swordId; payment]
             [Sword_type];
  let sword := NestedResult bought 0 in
  let request := NestedResult bought 1 in
  (* Lock the sword in our personal kiosk *)
  let personalCapArg := ObjectArg (capId buyerKiosk) in
  borrowed ← moveCall (rules_target "personal_kiosk" "borrow_val") [personalCapArg] [];
  let cap := NestedResult borrowed 0 in
  let potato := NestedResult borrowed 1 in
  let buyerKioskArg := ObjectArg (id buyerKiosk) in
  _ ← moveCall (kiosk_target "lock")
        [buyerKioskArg; cap; ObjectArg policyId; sword] [Sword_type];
  _ ← moveCall (rules_target "personal_kiosk" "return_val")
        [personalCapArg; cap; potato] [];
  (* Prove lock rule *)
  _ ← moveCall (rules_target "kiosk_lock_rule" "prove")
        [request; buyerKioskArg] [Sword_type];
  (* Prove personal kiosk rule *)
  _ ← moveCall (rules_target "personal_kiosk_rule" "prove")
        [buyerKioskArg; request] [Sword_type];
  (* Pay royalties *)
  _ ← moveCall (rules_target "royalty_rule" "pay")
        [ObjectArg policyId; request; royaltiesPayment] [Sword_type];
  (* Resolve TransferRequest *)
  _ ← moveCall {| package := "0x2"; module := "transfer_policy";
                  function := "confirm_request" |}
        [ObjectArg policyId; request] [Sword_type];
  mret tt.

Definition purchase (signer fromKioskObjectId swordId : string)
  : Rpc SuiTransactionBlockResponse :=
  (* Get the signer Kiosk to lock the sword at *)
  buyerKiosk ← getKiosk signer true;
  match buyerKiosk with
  | None => throw NeedPersonalKiosk
  | Some buyerKiosk =>
      (* Find the kiosk Listing *)
      let dfId := listing_field_id fromKioskObjectId swordId false in
      dfResp ← getObject dfId;
      match data dfResp with
      | None => throw (ListingNotFound swordId fromKioskObjectId)
      | Some dfData =>
          listingContent ← as_KioskListing (content dfData);
          let price := parseInt (klf_value listingContent) in
          (* Royalties *)
          royaltyConfigResp ← getObject royalty_field_id;
          match data royaltyConfigResp with
          | None => throw (RoyaltyConfigNotFound policyId)
          | Some royaltyData =>
              royaltyContent ← as_RoyaltyRuleConfigDF (content royaltyData);
              let royalties := rrc_value royaltyContent in
              let royalty := royaltiesAmount price royalties in
              match build (purchase_transaction buyerKiosk fromKioskObjectId swordId
                             price royalty) with
              | Throw e => throw e
              | Ok transaction =>
                  resp ← signAndExecuteTransaction transaction signer;
                  if bool_decide (effects resp = Some success) then
                    _ ← waitForTransaction (digest resp);
                    mret resp
                  else throw (PurchaseFailed resp)
              end
          end
      end
  end.

End client.

(** A market in which the sword is listed for 150 and the royalty rule
    asks for 2.5% and at least 2: the royalty comes to 3.75. *)
Definition fractional_market : World := {|
  objects :=
    <["0xca9" := Samples.buyer_cap]>
    (<[@listing_field_id Samples.sample_env Samples.seller_kiosk Samples.sword false
       := Samples.listing_object false "150"]>
    (<[@royalty_field_id Samples.sample_env := Samples.royalty_object 250 "2"]> ∅));
  submitted := [];
|}.

End Encoded.
(** ** Facts on the satchel *)

Module SatchelFacts.
Import Satchel.

(** The unit tests of the module abort as their annotations expect. *)

Example test_satchel_editing_aborts : test_satchel_editing = Abort ENotYourSatchel.
Proof. reflexivity. Qed.

Example test_satchel_return_aborts : test_satchel_return = Abort EInvalidReturn.
Proof. reflexivity. Qed.

Example test_scroll_swap_aborts : test_scroll_swap = Abort EInvalidReturn.
Proof. reflexivity. Qed.

(** *** Facts on the vector primitives *)

Section vector_facts.
Context {T : Type} (f : T → bool).

Lemma find_index_Some v i :
  find_index f v = Some i → ∃ x, v !! i = Some x ∧ f x = true.
Proof.
  revert i. induction v as [|y v IH]; intros i; simpl; [done|].
  destruct (f y) eqn:Hy.
  - intros [= <-]. eauto.
  - destruct (find_index f v) as [j|]; [|done].
    intros [= <-]. simpl. apply IH. done.
Qed.

Lemma find_index_None v :
  find_index f v = None ↔ Forall (λ x, f x = false) v.
Proof.
  induction v as [|y v IH]; simpl.
  - split; [constructor|done].
  - destruct (f y) eqn:Hy.
    + split; [done|]. intros H. inversion H; congruence.
    + destruct (find_index f v) as [j|].
      * split; [done|]. intros H. inversion H as [|?? _ Hv]; subst.
        apply IH in Hv. done.
      * split; [|done]. intros _. constructor; [done|]. by apply IH.
Qed.

Lemma find_index_is_Some v :
  is_Some (find_index f v) ↔ ∃ x, x ∈ v ∧ f x = true.
Proof.
  split.
  - intros [i Hi]. apply find_index_Some in Hi as (x & Hx & Hfx).
    exists x. split; [|done]. by eapply list_elem_of_lookup_2.
  - intros (x & Hx & Hfx).
    destruct (find_index f v) as [i|] eqn:Hi; [by eexists|].
    apply find_index_None in Hi. rewrite Forall_forall in Hi.
    specialize (Hi x Hx). congruence.
Qed.

Lemma find_index_push_back v x :
  Forall (λ y, f y = false) v → f x = true →
  find_index f (vector_push_back v x) = Some (length v).
Proof.
  unfold vector_push_back.
  induction 1 as [|y v Hy _ IH]; intros Hx; simpl.
  - by rewrite Hx.
  - rewrite Hy, IH by done. done.
Qed.

Lemma delete_push_back (v : list T) x :
  delete (length v) (vector_push_back v x) = v.
Proof.
  unfold vector_push_back. induction v as [|y v IH]; simpl; [done|].
  by rewrite IH.
Qed.

Lemma lookup_push_back (v : list T) x :
  vector_push_back v x !! length v = Some x.
Proof.
  unfold vector_push_back. rewrite lookup_app_r by done.
  by rewrite Nat.sub_diag.
Qed.
End vector_facts.

(** *** The entry points, case by case *)

Lemma add_scroll_authorised self cap scroll :
  object_id self = cap_satchel_id cap →
  add_scroll self cap scroll =
    Return (mkSatchel (satchel_uid self) (vector_push_back (scrolls self) scroll), tt).
Proof. intros Hcap. unfold add_scroll. by rewrite bool_decide_eq_true_2. Qed.

Lemma add_scroll_unauthorised self cap scroll :
  object_id self ≠ cap_satchel_id cap →
  add_scroll self cap scroll = Abort ENotYourSatchel.
Proof. intros Hcap. unfold add_scroll. by rewrite bool_decide_eq_false_2. Qed.

Lemma remove_scroll_unauthorised self cap scroll_id :
  object_id self ≠ cap_satchel_id cap →
  remove_scroll self cap scroll_id = Abort ENotYourSatchel.
Proof.
  intros Hcap. unfold remove_scroll.
  rewrite (bool_decide_eq_false_2 _ Hcap). reflexivity.
Qed.

Lemma remove_scroll_missing self cap scroll_id :
  object_id self = cap_satchel_id cap →
  find_index (has_id scroll_id) (scrolls self) = None →
  remove_scroll self cap scroll_id = Abort ENoScrollWithThisID.
Proof.
  intros Hcap Hidx. unfold remove_scroll.
  rewrite (bool_decide_eq_true_2 _ Hcap), Hidx. reflexivity.
Qed.

Lemma remove_scroll_found self cap scroll_id i :
  object_id self = cap_satchel_id cap →
  find_index (has_id scroll_id) (scrolls self) = Some i →
  ∃ x, scrolls self !! i = Some x ∧ object_id x = scroll_id ∧
       remove_scroll self cap scroll_id =
         Return (mkSatchel (satchel_uid self) (delete i (scrolls self)), x).
Proof.
  intros Hcap Hidx.
  destruct (find_index_Some _ _ _ Hidx) as (x & Hx & Hfx).
  exists x. split; [done|]. split.
  { by apply bool_decide_eq_true_1 in Hfx. }
  unfold remove_scroll, vector_remove.
  rewrite (bool_decide_eq_true_2 _ Hcap), Hidx. simpl. by rewrite Hx.
Qed.

Lemma borrow_scroll_missing self scroll_id :
  find_index (has_id scroll_id) (scrolls self) = None →
  borrow_scroll self scroll_id = Abort ENoScrollWithThisID.
Proof. intros Hidx. unfold borrow_scroll. by rewrite Hidx. Qed.

Lemma borrow_scroll_found self scroll_id i :
  find_index (has_id scroll_id) (scrolls self) = Some i →
  ∃ x, scrolls self !! i = Some x ∧ object_id x = scroll_id ∧
       borrow_scroll self scroll_id =
         Return (mkSatchel (satchel_uid self) (delete i (scrolls self)),
                 (x, mkBorrow (object_id self) scroll_id)).
Proof.
  intros Hidx.
  destruct (find_index_Some _ _ _ Hidx) as (x & Hx & Hfx).
  exists x. split; [done|]. split.
  { by apply bool_decide_eq_true_1 in Hfx. }
  unfold borrow_scroll, vector_remove. rewrite Hidx. simpl. by rewrite Hx.
Qed.

Lemma return_scroll_matching self scroll borrow :
  object_id self = borrow_satchel_id borrow →
  object_id scroll = borrow_scroll_id borrow →
  return_scroll self scroll borrow =
    Return (mkSatchel (satchel_uid self) (vector_push_back (scrolls self) scroll), tt).
Proof.
  destruct borrow as [sid cid]; simpl. intros Hs Hc. unfold return_scroll.
  by rewrite !bool_decide_eq_true_2.
Qed.

Lemma return_scroll_mismatch self scroll borrow :
  object_id self ≠ borrow_satchel_id borrow ∨
  object_id scroll ≠ borrow_scroll_id borrow →
  return_scroll self scroll borrow = Abort EInvalidReturn.
Proof.
  destruct borrow as [sid cid]; simpl. unfold return_scroll.
  intros [Hs|Hc].
  - rewrite (bool_decide_eq_false_2 _ Hs). reflexivity.
  - rewrite (bool_decide_eq_false_2 _ Hc).
    destruct (bool_decide (object_id self = sid)); reflexivity.
Qed.

(** *** Unique identities and reordering *)

Lemma has_id_false_iff scroll_id (v : list Scroll) :
  Forall (λ x, has_id scroll_id x = false) v ↔ scroll_id ∉ object_id <$> v.
Proof.
  rewrite Forall_forall, list_elem_of_fmap. unfold has_id. split.
  - intros H (x & -> & Hx). specialize (H x Hx).
    by apply bool_decide_eq_false_1 in H.
  - intros H x Hx. apply bool_decide_eq_false_2. intros <-. apply H. eauto.
Qed.

Lemma unique_scroll (v : list Scroll) x y :
  NoDup (object_id <$> v) → x ∈ v → y ∈ v → object_id x = object_id y → x = y.
Proof.
  induction v as [|z v IH]; simpl; [by intros _ ?%not_elem_of_nil|].
  rewrite NoDup_cons, !elem_of_cons, list_elem_of_fmap.
  intros [Hz Hv] [->|Hx] [->|Hy] Hid; try done.
  - destruct Hz. eauto.
  - destruct Hz. eauto.
  - by apply IH.
Qed.

Lemma find_index_reordered scroll_id (v1 v2 : list Scroll) i1 :
  NoDup (object_id <$> v1) → v1 ≡ₚ v2 →
  find_index (has_id scroll_id) v1 = Some i1 →
  ∃ i2 x, find_index (has_id scroll_id) v2 = Some i2 ∧
          v1 !! i1 = Some x ∧ v2 !! i2 = Some x ∧
          delete i1 v1 ≡ₚ delete i2 v2.
Proof.
  intros Hnd Hperm H1.
  destruct (find_index_Some _ _ _ H1) as (x1 & Hx1 & Hf1).
  assert (is_Some (find_index (has_id scroll_id) v2)) as [i2 H2].
  { apply find_index_is_Some. exists x1. split; [|done].
    rewrite <- Hperm. by eapply list_elem_of_lookup_2. }
  destruct (find_index_Some _ _ _ H2) as (x2 & Hx2 & Hf2).
  assert (x2 = x1) as ->.
  { apply (unique_scroll v1); [done| |by eapply list_elem_of_lookup_2|].
    - rewrite Hperm. by eapply list_elem_of_lookup_2.
    - apply bool_decide_eq_true_1 in Hf1, Hf2. congruence. }
  exists i2, x1. repeat split; try done.
  apply (Permutation_cons_inv (a := x1)).
  by rewrite <- !delete_Permutation.
Qed.

Lemma find_index_reordered_None scroll_id (v1 v2 : list Scroll) :
  v1 ≡ₚ v2 →
  find_index (has_id scroll_id) v1 = None →
  find_index (has_id scroll_id) v2 = None.
Proof. rewrite !find_index_None. by intros ->. Qed.

Lemma same_contents_ids s1 s2 :
  same_contents s1 s2 → scroll_ids s1 ≡ₚ scroll_ids s2.
Proof. intros [_ H]. unfold scroll_ids. by rewrite H. Qed.

Lemma same_contents_object_id s1 s2 :
  same_contents s1 s2 → object_id s1 = object_id s2.
Proof. intros [H _]. unfold object_id, object_uid, satchel_key. by rewrite H. Qed.

Lemma same_contents_legal op s1 s2 :
  same_contents s1 s2 → legal op s1 → legal op s2.
Proof.
  intros Hs [Hnd Hop]. pose proof (same_contents_ids _ _ Hs) as Hids.
  split.
  - unfold unique_ids. by rewrite <- Hids.
  - destruct op; try done; by rewrite <- Hids.
Qed.

(** Satchels with the same contents cannot be told apart by the entry
    points. *)
Lemma same_contents_bisimulation : bisimulation same_contents.
Proof.
  intros s1 s2 cap op Hs Hlegal.
  split; [by eapply same_contents_legal|].
  pose proof (same_contents_object_id _ _ Hs) as Hid.
  destruct Hs as [Huid Hperm]. destruct Hlegal as [Hnd _].
  destruct op as [scroll|scroll_id|scroll_id|scroll borrow]; simpl.
  - destruct (decide (object_id s1 = cap_satchel_id cap)) as [Hcap|Hcap].
    + rewrite !add_scroll_authorised by congruence. simpl.
      split; [done|]. split; [done|]. simpl. unfold vector_push_back.
      by rewrite Hperm.
    + rewrite !add_scroll_unauthorised by congruence. done.
  - destruct (decide (object_id s1 = cap_satchel_id cap)) as [Hcap|Hcap].
    + destruct (find_index (has_id scroll_id) (scrolls s1)) as [i1|] eqn:H1.
      * destruct (find_index_reordered _ _ _ _ Hnd Hperm H1)
          as (i2 & x & H2 & Hx1 & Hx2 & Hdel).
        destruct (remove_scroll_found s1 cap _ _ Hcap H1) as (y1 & Hy1 & _ & ->).
        destruct (remove_scroll_found s2 cap scroll_id i2) as (y2 & Hy2 & _ & ->);
          [congruence|done|].
        simpl. split; [congruence|]. by split.
      * rewrite !remove_scroll_missing;
          [done|congruence|by eapply find_index_reordered_None|done|done].
    + rewrite !remove_scroll_unauthorised by congruence. done.
  - destruct (find_index (has_id scroll_id) (scrolls s1)) as [i1|] eqn:H1.
    + destruct (find_index_reordered _ _ _ _ Hnd Hperm H1)
        as (i2 & x & H2 & Hx1 & Hx2 & Hdel).
      destruct (borrow_scroll_found s1 _ _ H1) as (y1 & Hy1 & _ & ->).
      destruct (borrow_scroll_found s2 _ _ H2) as (y2 & Hy2 & _ & ->).
      simpl. split; [congruence|]. by split.
    + rewrite !borrow_scroll_missing;
        [done|by eapply find_index_reordered_None|done].
  - destruct (decide (object_id s1 = borrow_satchel_id borrow ∧
                      object_id scroll = borrow_scroll_id borrow)) as [[Ha Hb]|Hno].
    + rewrite !return_scroll_matching by congruence. simpl.
      split; [done|]. split; [done|]. simpl. unfold vector_push_back.
      by rewrite Hperm.
    + apply not_and_l in Hno.
      rewrite !return_scroll_mismatch; [done| |done].
      destruct Hno; [left|right]; congruence.
Qed.

Lemma same_contents_indistinguishable s1 s2 :
  same_contents s1 s2 → indistinguishable s1 s2.
Proof. intros H. exists same_contents. split; [apply same_contents_bisimulation|done]. Qed.

(** *** Authorisation of the entry points *)

(** C2, as stated, fails: [borrow_scroll] is a mutating entry point and
    checks no capability.  A caller who only holds the capability of
    another satchel borrows the healing scroll out of [my_satchel]: the
    call returns, and the satchel has changed. *)
Lemma borrow_scroll_checks_no_capability :
  object_id Samples.my_satchel ≠ cap_satchel_id Samples.other_cap ∧
  mutate_with Samples.other_cap (OpBorrow 10%N) Samples.my_satchel =
    Return (mkSatchel (mkUID 1%N) [Samples.stamina_scroll],
            OutBorrowed Samples.healing_scroll (mkBorrow 1%N 10%N)) ∧
  after Samples.my_satchel
    (mutate_with Samples.other_cap (OpBorrow 10%N) Samples.my_satchel)
    ≠ Samples.my_satchel.
Proof. split; [done|]. split; [reflexivity|]. vm_compute. discriminate. Qed.

(** C2, amended: [add_scroll] and [remove_scroll], presented with a
    capability that governs another satchel, abort with [ENotYourSatchel]
    and leave the satchel as it was; [borrow_scroll] and [return_scroll]
    take no capability, and their outcome is the same whatever capability
    the caller holds. *)
Theorem capability_mismatch self cap op :
  object_id self ≠ cap_satchel_id cap →
  match op with
  | OpAdd _ | OpRemove _ =>
      mutate_with cap op self = Abort ENotYourSatchel ∧
      after self (mutate_with cap op self) = self
  | OpBorrow _ | OpReturn _ _ =>
      ∀ cap', mutate_with cap' op self = mutate_with cap op self
  end.
Proof.
  intros Hcap. destruct op as [scroll|scroll_id|scroll_id|scroll borrow]; simpl.
  - by rewrite add_scroll_unauthorised.
  - by rewrite remove_scroll_unauthorised.
  - done.
  - done.
Qed.

Lemma capability_mismatch_witness :
  (mutate_with Samples.other_cap (OpAdd Samples.haste_scroll) Samples.my_satchel
     = Abort ENotYourSatchel ∧
   after Samples.my_satchel
     (mutate_with Samples.other_cap (OpAdd Samples.haste_scroll) Samples.my_satchel)
     = Samples.my_satchel) ∧
  (mutate_with Samples.other_cap (OpRemove 10%N) Samples.my_satchel
     = Abort ENotYourSatchel ∧
   after Samples.my_satchel
     (mutate_with Samples.other_cap (OpRemove 10%N) Samples.my_satchel)
     = Samples.my_satchel).
Proof.
  split.
  - apply (capability_mismatch Samples.my_satchel Samples.other_cap
             (OpAdd Samples.haste_scroll)). vm_compute. discriminate.
  - apply (capability_mismatch Samples.my_satchel Samples.other_cap (OpRemove 10%N)).
    vm_compute. discriminate.
Defined.

(** *** Borrowing and returning *)

Lemma borrow_scroll_inv self scroll_id self1 scroll borrow :
  borrow_scroll self scroll_id = Return (self1, (scroll, borrow)) →
  ∃ i, scrolls self !! i = Some scroll ∧
       object_id scroll = scroll_id ∧
       self1 = mkSatchel (satchel_uid self) (delete i (scrolls self)) ∧
       borrow = mkBorrow (object_id self) scroll_id.
Proof.
  intros Hb.
  destruct (find_index (has_id scroll_id) (scrolls self)) as [i|] eqn:Hidx.
  - destruct (borrow_scroll_found _ _ _ Hidx) as (x & Hx & Hid & Heq).
    rewrite Heq in Hb. injection Hb as <- <- <-. by exists i.
  - by rewrite borrow_scroll_missing in Hb.
Qed.

Lemma unique_ids_delete (v : list Scroll) i x :
  NoDup (object_id <$> v) → v !! i = Some x → x ∉ delete i v.
Proof.
  intros Hnd Hx Hin.
  pose proof (delete_Permutation _ _ _ Hx) as Hperm.
  rewrite Hperm, fmap_cons, NoDup_cons in Hnd. destruct Hnd as [Hnotin _].
  apply Hnotin, list_elem_of_fmap. eauto.
Qed.

(** C4: a scroll borrowed from a satchel and returned with its own receipt
    leaves a satchel with the same contents as before the loan, hence one
    that no legal sequence of calls tells from the original; a return
    with a receipt of another satchel or of another scroll aborts with
    [EInvalidReturn], the satchel stays as the loan left it, and the
    borrowed scroll is still out of it. *)
Theorem borrow_return self scroll_id self1 scroll borrow :
  unique_ids self →
  borrow_scroll self scroll_id = Return (self1, (scroll, borrow)) →
  (∃ self2, return_scroll self1 scroll borrow = Return (self2, tt) ∧
            same_contents self2 self ∧ indistinguishable self2 self) ∧
  (∀ scroll' borrow',
     object_id self1 ≠ borrow_satchel_id borrow' ∨
     object_id scroll' ≠ borrow_scroll_id borrow' →
     return_scroll self1 scroll' borrow' = Abort EInvalidReturn ∧
     after self1 (return_scroll self1 scroll' borrow') = self1 ∧
     scroll ∉ scrolls self1).
Proof.
  intros Hnd Hb.
  destruct (borrow_scroll_inv _ _ _ _ _ Hb) as (i & Hi & Hid & -> & ->).
  split.
  - eexists. split; [by apply return_scroll_matching|].
    assert (same_contents
              (mkSatchel (satchel_uid self)
                 (vector_push_back (delete i (scrolls self)) scroll)) self) as Hsame.
    { split; [done|]. simpl. unfold vector_push_back.
      rewrite (delete_Permutation (scrolls self) i scroll) at 2 by done.
      by rewrite Permutation_app_comm. }
    split; [done|]. by apply same_contents_indistinguishable.
  - intros scroll' borrow' Hmis.
    rewrite return_scroll_mismatch by done.
    split; [done|]. split; [done|]. simpl. by apply unique_ids_delete.
Qed.

Lemma borrow_return_witness :
  (∃ self2,
     return_scroll (mkSatchel (mkUID 1%N) [Samples.stamina_scroll])
       Samples.healing_scroll (mkBorrow 1%N 10%N) = Return (self2, tt) ∧
     same_contents self2 Samples.my_satchel ∧
     indistinguishable self2 Samples.my_satchel) ∧
  (∀ scroll' borrow',
     object_id (mkSatchel (mkUID 1%N) [Samples.stamina_scroll]) ≠ borrow_satchel_id borrow' ∨
     object_id scroll' ≠ borrow_scroll_id borrow' →
     return_scroll (mkSatchel (mkUID 1%N) [Samples.stamina_scroll]) scroll' borrow'
       = Abort EInvalidReturn ∧
     after (mkSatchel (mkUID 1%N) [Samples.stamina_scroll])
       (return_scroll (mkSatchel (mkUID 1%N) [Samples.stamina_scroll]) scroll' borrow')
       = mkSatchel (mkUID 1%N) [Samples.stamina_scroll] ∧
     Samples.healing_scroll ∉ scrolls (mkSatchel (mkUID 1%N) [Samples.stamina_scroll])).
Proof.
  apply (borrow_return Samples.my_satchel 10%N).
  - unfold unique_ids. compute_done.
  - reflexivity.
Defined.

(** *** Adding and removing *)

(** C6: with the capability of the satchel, adding a scroll and removing
    it at once gives the same scroll back and the satchel it started
    from, in which no scroll of that identity is left. *)
Theorem add_remove self cap scroll :
  object_id self = cap_satchel_id cap →
  object_id scroll ∉ scroll_ids self →
  ∃ self1,
    add_scroll self cap scroll = Return (self1, tt) ∧
    remove_scroll self1 cap (object_id scroll) = Return (self, scroll) ∧
    find_index (has_id (object_id scroll)) (scrolls self) = None.
Proof.
  intros Hcap Hfresh.
  apply has_id_false_iff in Hfresh.
  eexists. split; [by apply add_scroll_authorised|].
  split; [|by apply find_index_None].
  destruct (remove_scroll_found
              (mkSatchel (satchel_uid self) (vector_push_back (scrolls self) scroll))
              cap (object_id scroll) (length (scrolls self)))
    as (x & Hx & _ & ->); [done| |].
  { simpl. apply find_index_push_back; [done|]. by apply bool_decide_eq_true_2. }
  simpl in *. rewrite lookup_push_back in Hx. injection Hx as <-.
  rewrite delete_push_back. by destruct self.
Qed.

Lemma add_remove_witness :
  ∃ self1,
    add_scroll Samples.my_satchel Samples.my_cap Samples.haste_scroll = Return (self1, tt) ∧
    remove_scroll self1 Samples.my_cap 12%N = Return (Samples.my_satchel, Samples.haste_scroll) ∧
    find_index (has_id 12%N) (scrolls Samples.my_satchel) = None.
Proof.
  apply (add_remove Samples.my_satchel Samples.my_cap Samples.haste_scroll).
  - reflexivity.
  - compute_done.
Defined.

(** A scroll that is not in the satchel cannot be removed from it. *)
Lemma remove_scroll_absent self cap scroll_id :
  scroll_id ∉ scroll_ids self →
  (∃ code, remove_scroll self cap scroll_id = Abort code) ∧
  after self (remove_scroll self cap scroll_id) = self ∧
  (object_id self = cap_satchel_id cap →
   remove_scroll self cap scroll_id = Abort ENoScrollWithThisID).
Proof.
  intros Habsent. apply has_id_false_iff, find_index_None in Habsent.
  destruct (decide (object_id self = cap_satchel_id cap)) as [Hcap|Hcap].
  - rewrite remove_scroll_missing by done. eauto.
  - rewrite remove_scroll_unauthorised by done. split; [eauto|]. split; [done|].
    intros. done.
Qed.

End SatchelFacts.

(** ** Facts on the marketplace orchestrator *)

Module MarketplaceFacts.
Import Marketplace.

Section facts.
Context `{Environment}.

(** *** Numbers *)



Lemma amount_value_toString price :
  amount_value (AmountString (toString price)) = of_integer price.
Proof.
  destruct price as [z|].
  - simpl. rewrite NilZero.isi.
    + simpl. by rewrite DecimalZ.of_to.
    + destruct z as [|p|p]; [done| |done].
      intros [= Hp]. by apply DecimalPos.Unsigned.to_uint_nonnil in Hp.
    + destruct z as [|p|p]; [done|done|].
      intros [= Hp]. by apply DecimalPos.Unsigned.to_uint_nonnil in Hp.
  - reflexivity.
Qed.


(** *** [parseInt] reads back what [toString] prints *)

Lemma parse_digits_uint d a :
  parse_digits 10 (NilEmpty.string_of_uint d) (Some a) =
    Some (DecimalPos.Unsigned.of_lu (Decimal.rev d)
          + a * 10 ^ DecimalPos.Unsigned.usize d)%N.
Proof.
  revert a. induction d as [|d IH|d IH|d IH|d IH|d IH|d IH|d IH|d IH|d IH|d IH];
    intros a;
    [simpl; f_equal; lia|..];
    cbn [NilEmpty.string_of_uint parse_digits];
    (change (digit_value _) with (Some 0%N) ||
     change (digit_value _) with (Some 1%N) ||
     change (digit_value _) with (Some 2%N) ||
     change (digit_value _) with (Some 3%N) ||
     change (digit_value _) with (Some 4%N) ||
     change (digit_value _) with (Some 5%N) ||
     change (digit_value _) with (Some 6%N) ||
     change (digit_value _) with (Some 7%N) ||
     change (digit_value _) with (Some 8%N) ||
     change (digit_value _) with (Some 9%N));
    cbn [default bool_decide]; rewrite bool_decide_eq_true_2 by done;
    unfold Decimal.rev at 1; cbn [Decimal.revapp];
    rewrite DecimalPos.Unsigned.of_lu_revapp;
    cbn [DecimalPos.Unsigned.of_lu DecimalPos.Unsigned.usize];
    rewrite N.pow_succ_r', IH; unfold Datatypes.id; f_equal; lia.
Qed.

Lemma parseInt_uint d :
  d ≠ Decimal.Nil →
  parseInt (NilEmpty.string_of_uint d) = Some (Z.of_N (N.of_uint d)).
Proof.
  intros Hd.
  assert (parseInt (NilEmpty.string_of_uint d) =
            n ← parse_digits 10 (NilEmpty.string_of_uint d) (Some 0%N);
            Some (1 * Z.of_N n)%Z) as ->.
  { destruct d as [|d|d|d|d|d|d|d|d|d|d]; try done; try reflexivity.
    destruct d; reflexivity. }
  rewrite parse_digits_uint. cbn [mbind option_bind].
  unfold N.of_uint. rewrite DecimalPos.Unsigned.of_uint_alt. f_equal. lia.
Qed.

Lemma parseInt_toString (n : N) :
  parseInt (toString (Some (Z.of_N n))) = Some (Z.of_N n).
Proof.
  destruct n as [|p]; [reflexivity|].
  cbn [toString Z.of_N Z.to_int NilZero.string_of_int].
  pose proof (DecimalPos.Unsigned.to_uint_nonnil p) as Hnil.
  unfold NilZero.string_of_uint.
  destruct (Pos.to_uint p) eqn:Hp; try done;
    rewrite <- Hp, parseInt_uint by (by rewrite Hp);
    change (N.of_uint (Pos.to_uint p)) with (Pos.of_uint (Pos.to_uint p));
    by rewrite DecimalPos.Unsigned.of_to.
Qed.

(** *** Reads leave the world alone *)

Lemma getKiosk_reads owner flag w : (getKiosk owner flag w).2 = w.
Proof.
  unfold getKiosk, getOwnedObjects. unfold mbind at 1 3 4. unfold rpc_bind.
  simpl.
  destruct (_ ≫= data) as [d|]; [|reflexivity].
  destruct flag; destruct (content d); reflexivity.
Qed.

Lemma getKiosk_Ok owner flag w r w' :
  getKiosk owner flag w = (r, w') → w' = w.
Proof. intros Hk. by rewrite <- (getKiosk_reads owner flag w), Hk. Qed.

Lemma getKiosk_result owner flag w r :
  (getKiosk owner flag w).1 = r → getKiosk owner flag w = (r, w).
Proof.
  intros <-. rewrite <- (getKiosk_reads owner flag w) at 3.
  by destruct (getKiosk owner flag w).
Qed.

(** *** The three ways out of [purchase] before a transaction exists *)

Lemma purchase_without_kiosk signer from sword w :
  (getKiosk signer true w).1 = Ok None →
  purchase signer from sword w = (Throw NeedPersonalKiosk, w).
Proof. intros Hk%getKiosk_result. unfold purchase, mbind, rpc_bind. by rewrite Hk. Qed.

Lemma purchase_kiosk_throws signer from sword w e :
  (getKiosk signer true w).1 = Throw e →
  purchase signer from sword w = (Throw e, w).
Proof. intros Hk%getKiosk_result. unfold purchase, mbind, rpc_bind. by rewrite Hk. Qed.

Lemma purchase_without_listing signer from sword w k :
  (getKiosk signer true w).1 = Ok (Some k) →
  objects w !! listing_field_id from sword false = None →
  purchase signer from sword w = (Throw (ListingNotFound sword from), w).
Proof.
  intros Hk%getKiosk_result Hl. unfold purchase, mbind, rpc_bind. rewrite Hk.
  unfold getObject. by rewrite Hl.
Qed.

(** Whatever the buyer's kiosk lookup answers, a missing listing stops
    [purchase] before anything is submitted. *)
Lemma purchase_stops_without_listing signer from sword w :
  objects w !! listing_field_id from sword false = None →
  ∃ e, purchase signer from sword w = (Throw e, w).
Proof.
  intros Hl.
  destruct (getKiosk signer true w) as [[[k|]|e] w'] eqn:Hk;
    pose proof (getKiosk_Ok _ _ _ _ _ Hk) as ->.
  - eexists. eapply purchase_without_listing; [by rewrite Hk|done].
  - eexists. apply purchase_without_kiosk. by rewrite Hk.
  - eexists. apply purchase_kiosk_throws. by rewrite Hk.
Qed.

(** *** The way through *)


Lemma classify_framework m f :
  classify {| package := "0x2"; module := m; function := f |} =
    classify_with true (bool_decide ("0x2" = rulesPackageId)) m f.
Proof. reflexivity. Qed.

Lemma classify_rules m f :
  classify (rules_target m f) =
    classify_with (bool_decide (rulesPackageId = "0x2")) true m f.
Proof.
  unfold classify, rules_target; simpl.
  by rewrite (bool_decide_eq_true_2 (rulesPackageId = rulesPackageId)).
Qed.

Lemma settlement_calls k from sword lf rc :
  move_calls (settlement k from sword lf rc) =
    [kiosk_target "purchase";
     rules_target "personal_kiosk" "borrow_val";
     kiosk_target "lock";
     rules_target "personal_kiosk" "return_val";
     rules_target "kiosk_lock_rule" "prove";
     rules_target "personal_kiosk_rule" "prove";
     rules_target "royalty_rule" "pay";
     {| package := "0x2"; module := "transfer_policy"; function := "confirm_request" |}].
Proof. reflexivity. Qed.

Lemma settlement_steps k from sword lf rc :
  steps (settlement k from sword lf rc) =
    [StepPurchase; StepBorrow; StepLock; StepRestore;
     StepProve "kiosk_lock_rule"; StepProve "personal_kiosk_rule";
     StepProve "royalty_rule"; StepConfirm].
Proof.
  unfold steps. rewrite settlement_calls. unfold kiosk_target. cbn [omap list_omap].
  rewrite !classify_framework, !classify_rules.
  destruct (bool_decide ("0x2" = rulesPackageId));
    destruct (bool_decide (rulesPackageId = "0x2")); reflexivity.
Qed.

Lemma getKiosk_none address flag w :
  holds_none w address (cap_type flag) →
  getKiosk address flag w = (Ok None, w).
Proof.
  intros Hnone. unfold getKiosk, getOwnedObjects.
  unfold mbind at 1. unfold rpc_bind.
  fold (cap_type flag).
  assert (filter (λ e, owned_by address (cap_type flag) e = true)
            (map_to_list (objects w)) = []) as ->; [|done].
  apply elem_of_nil_inv. intros [oid o] [Hown Hin]%list_elem_of_filter.
  apply elem_of_map_to_list in Hin.
  apply bool_decide_eq_true_1 in Hown. by apply (Hnone oid o).
Qed.

Lemma getKiosk_found address flag w k w' :
  getKiosk address flag w = (Ok (Some k), w') → isPersonal k = false.
Proof.
  unfold getKiosk, getOwnedObjects. unfold mbind at 1 3 4. unfold rpc_bind.
  simpl.
  destruct (_ ≫= data) as [d|]; [|by intros [= ]].
  destruct flag; destruct (content d); simpl; intros [= <- _]; done.
Qed.

(** The keys of the exclusive and of the plain listing of one sword
    differ, so a collision-free derivation gives them different ids. *)
Lemma listing_keys_differ swordId :
  bcs_Listing {| listing_id := swordId; is_exclusive := true |} ≠
  bcs_Listing {| listing_id := swordId; is_exclusive := false |}.
Proof. unfold bcs_Listing; simpl. intros Heq%app_inv_head. done. Qed.

Lemma listing_field_ids_differ from swordId :
  (∀ p t k p' t' k',
     deriveDynamicFieldID p t k = deriveDynamicFieldID p' t' k' →
     p = p' ∧ t = t' ∧ k = k') →
  listing_field_id from swordId true ≠ listing_field_id from swordId false.
Proof.
  intros Hinj Heq. apply Hinj in Heq as (_ & _ & Heq).
  by apply listing_keys_differ in Heq.
Qed.

(** *** The claims on [getKiosk] and [purchase] *)


(** C8: whichever flag is passed, a kiosk found by [getKiosk] is
    reported with [isPersonal] false. *)
Theorem getKiosk_isPersonal_false w address flag k w' :
  getKiosk address flag w = (Ok (Some k), w') → isPersonal k = false.
Proof. apply getKiosk_found. Qed.

(** C9: [purchase] looks the listing up under the key whose exclusivity
    flag is false.  When the listing of the sword is stored under the
    exclusive key and nothing under the plain one, [purchase] throws and
    submits nothing; it throws the not-found error as soon as the
    buyer's kiosk was found; and the listing is still there. *)
Theorem exclusive_listing_not_found w signer from sword lo :
  objects w !! listing_field_id from sword true = Some lo →
  objects w !! listing_field_id from sword false = None →
  (∃ e, purchase signer from sword w = (Throw e, w)) ∧
  (∀ k, (getKiosk signer true w).1 = Ok (Some k) →
        purchase signer from sword w = (Throw (ListingNotFound sword from), w)) ∧
  objects (purchase signer from sword w).2 !! listing_field_id from sword true = Some lo.
Proof.
  intros Hexcl Hplain.
  destruct (purchase_stops_without_listing signer from sword w Hplain) as [e He].
  split; [by exists e|]. split.
  - intros k Hk. by eapply purchase_without_listing.
  - by rewrite He.
Qed.

(** C10: for an address that owns no capability object of the requested
    kind, [getKiosk] returns [undefined] and does not throw; [purchase]
    for a buyer without a personal-kiosk capability then fails with
    "You need a PersonalKiosk to buy this item", leaving the world as it
    was: nothing has been submitted. *)
Theorem no_capability w address flag from sword :
  holds_none w address (cap_type flag) →
  getKiosk address flag w = (Ok None, w) ∧
  (flag = true →
   purchase address from sword w = (Throw NeedPersonalKiosk, w) ∧
   message NeedPersonalKiosk = "You need a PersonalKiosk to buy this item" ∧
   submitted (purchase address from sword w).2 = submitted w).
Proof.
  intros Hnone. pose proof (getKiosk_none _ _ _ Hnone) as Hk.
  split; [done|]. intros ->.
  rewrite (purchase_without_kiosk address from sword w) by (by rewrite Hk). done.
Qed.
End facts.

(** *** The theorems at work on the sample market *)

Lemma sample_getKiosk :
  (@getKiosk Samples.sample_env Samples.buyer true Samples.market).1
    = Ok (Some Samples.sample_kiosk).
Proof. vm_compute. reflexivity. Qed.


Lemma getKiosk_isPersonal_false_witness : isPersonal Samples.sample_kiosk = false.
Proof.
  apply (@getKiosk_isPersonal_false Samples.sample_env Samples.market Samples.buyer
           true Samples.sample_kiosk Samples.market).
  apply getKiosk_result. vm_compute. reflexivity.
Defined.

Lemma exclusive_listing_not_found_witness :
  @purchase Samples.sample_env Samples.buyer Samples.seller_kiosk Samples.sword
    Samples.exclusive_market
  = (Throw (ListingNotFound Samples.sword Samples.seller_kiosk), Samples.exclusive_market).
Proof.
  destruct (@exclusive_listing_not_found Samples.sample_env Samples.exclusive_market
              Samples.buyer Samples.seller_kiosk Samples.sword
              (Samples.listing_object true "100"))
    as (_ & Hfound & _).
  - vm_compute. reflexivity.
  - vm_compute. reflexivity.
  - apply (Hfound Samples.sample_kiosk). vm_compute. reflexivity.
Defined.

Lemma no_capability_witness :
  @getKiosk Samples.sample_env Samples.buyer true Samples.market_without_buyer_kiosk
    = (Ok None, Samples.market_without_buyer_kiosk) ∧
  @purchase Samples.sample_env Samples.buyer Samples.seller_kiosk Samples.sword
    Samples.market_without_buyer_kiosk
    = (Throw NeedPersonalKiosk, Samples.market_without_buyer_kiosk).
Proof.
  destruct (@no_capability Samples.sample_env Samples.market_without_buyer_kiosk
              Samples.buyer true Samples.seller_kiosk Samples.sword)
    as [Hk Hp].
  - unfold holds_none. apply (bool_decide_unpack _). vm_compute. exact I.
  - split; [exact Hk|]. by destruct (Hp eq_refl) as [-> _].
Defined.

End MarketplaceFacts.

(** ** Facts on the transfer policy *)

Module TransferPolicyFacts.
Import TransferPolicy.

Lemma confirmRequest_complete policy request :
  satisfied request = rules policy → confirmRequest policy request = inr tt.
Proof. intros Heq. unfold confirmRequest. by rewrite decide_True. Qed.

Lemma confirmRequest_incomplete policy request :
  satisfied request ≠ rules policy →
  confirmRequest policy request = inl IncompleteRuleError.
Proof. intros Hne. unfold confirmRequest. by rewrite decide_False. Qed.

(** C1: [confirmRequest] succeeds exactly when the satisfied-rule markers
    of the request are the registered rule set of the policy; when they
    are a strict subset of it, it fails with IncompleteRuleError and the
    settlement does not finalize: the ledger stays as it was. *)
Theorem confirmRequest_iff policy request :
  (confirmRequest policy request = inr tt ↔ satisfied request = rules policy) ∧
  (satisfied request ⊂ rules policy →
   confirmRequest policy request = inl IncompleteRuleError ∧
   ∀ (Ledger : Type) (effects : Ledger → Ledger) (ledger : Ledger),
     finalize effects policy request ledger = ledger).
Proof.
  split.
  - split; [|apply confirmRequest_complete].
    unfold confirmRequest. by case_decide.
  - intros [_ Hstrict].
    assert (satisfied request ≠ rules policy) as Hne.
    { intros Heq. apply Hstrict. by rewrite Heq. }
    split; [by apply confirmRequest_incomplete|].
    intros Ledger effects ledger. unfold finalize.
    by rewrite confirmRequest_incomplete.
Qed.

Lemma confirmRequest_iff_witness :
  confirmRequest {| rules := {["royalty_rule"; "kiosk_lock_rule"]} |}
                 (prove "royalty_rule" (new_request "0x5307d" 100))
    = inl IncompleteRuleError ∧
  ∀ (Ledger : Type) (effects : Ledger → Ledger) (ledger : Ledger),
    finalize effects {| rules := {["royalty_rule"; "kiosk_lock_rule"]} |}
             (prove "royalty_rule" (new_request "0x5307d" 100)) ledger = ledger.
Proof.
  apply (confirmRequest_iff {| rules := {["royalty_rule"; "kiosk_lock_rule"]} |}
           (prove "royalty_rule" (new_request "0x5307d" 100))).
  apply (bool_decide_unpack _). vm_compute. exact I.
Defined.

(** The scenario of the specification: with the royalty and the lock rule
    registered, proving both lets the confirmation through. *)
Example two_rules_both_proven :
  confirmRequest {| rules := {["royalty_rule"; "kiosk_lock_rule"]} |}
    (prove "kiosk_lock_rule" (prove "royalty_rule" (new_request "0x5307d" 100)))
  = inr tt.
Proof. apply confirmRequest_complete. simpl. set_solver. Qed.

(** The order of the proofs does not matter. *)
Lemma prove_comm r1 r2 request :
  prove r1 (prove r2 request) = prove r2 (prove r1 request).
Proof.
  unfold prove; simpl. f_equal.
  by rewrite !(assoc_L (∪)), (comm_L (∪) {[r1]} {[r2]}).
Qed.

(** The settlement built by [purchase] reaches its confirmation with the
    lock, personal-kiosk and royalty rules proven, so it finalizes
    exactly for a policy that registers these three rules. *)
Lemma purchase_settlement_confirms `{Marketplace.Environment}
    k from sword lf rc policy item price :
  confirmRequest policy
    (request_after (Marketplace.steps (Marketplace.settlement k from sword lf rc))
                   (new_request item price)) = inr tt
  ↔ rules policy = {["kiosk_lock_rule"; "personal_kiosk_rule"; "royalty_rule"]}.
Proof.
  rewrite MarketplaceFacts.settlement_steps.
  unfold request_after, proven; simpl. split.
  - intros Hok. unfold confirmRequest in Hok. case_decide as Heq; [|done].
    rewrite <- Heq. simpl. set_solver.
  - intros Heq. apply confirmRequest_complete. rewrite Heq. simpl. set_solver.
Qed.

End TransferPolicyFacts.

(** ** Asking for what is not there *)

Module NotFound.
Import Satchel Marketplace.

(** C5: removing a scroll whose identity is not in the satchel aborts and
    leaves the satchel as it was, with [ENoScrollWithThisID] when the
    capability is the satchel's; purchasing a sword of which the kiosk
    holds no listing throws and leaves the world as it was, nothing being
    submitted, with "Could not find Listing ..." when the buyer's kiosk
    was found. *)
Theorem nothing_listed `{Environment} :
  (∀ self cap scroll_id,
     scroll_id ∉ scroll_ids self →
     (∃ code, remove_scroll self cap scroll_id = Abort code) ∧
     after self (remove_scroll self cap scroll_id) = self ∧
     (object_id self = cap_satchel_id cap →
      remove_scroll self cap scroll_id = Abort ENoScrollWithThisID)) ∧
  (∀ w signer from sword,
     (∀ exclusive, objects w !! listing_field_id from sword exclusive = None) →
     (∃ e, purchase signer from sword w = (Throw e, w)) ∧
     (∀ k, (getKiosk signer true w).1 = Ok (Some k) →
        purchase signer from sword w = (Throw (ListingNotFound sword from), w) ∧
        message (ListingNotFound sword from) =
          "Could not find Listing for item " +:+ sword +:+ " under kiosk " +:+ from)).
Proof.
  split.
  - intros self cap scroll_id. apply SatchelFacts.remove_scroll_absent.
  - intros w signer from sword Habsent. split.
    + by apply MarketplaceFacts.purchase_stops_without_listing.
    + intros k Hk. split; [|done].
      by eapply MarketplaceFacts.purchase_without_listing.
Qed.

Lemma nothing_listed_witness :
  remove_scroll Samples.my_satchel Samples.my_cap 12%N = Abort ENoScrollWithThisID ∧
  @purchase Samples.sample_env Samples.buyer Samples.seller_kiosk Samples.sword
    Samples.empty_market
  = (Throw (ListingNotFound Samples.sword Samples.seller_kiosk), Samples.empty_market).
Proof.
  destruct (@nothing_listed Samples.sample_env) as [Hremove Hpurchase].
  split.
  - destruct (Hremove Samples.my_satchel Samples.my_cap 12%N) as (_ & _ & Hcode).
    + apply (bool_decide_unpack _). vm_compute. exact I.
    + apply Hcode. reflexivity.
  - destruct (Hpurchase Samples.empty_market Samples.buyer Samples.seller_kiosk
                Samples.sword) as [_ Hfound].
    + intros []; vm_compute; reflexivity.
    + apply (Hfound Samples.sample_kiosk). vm_compute. reflexivity.
Defined.

End NotFound.

(** ** More on the satchel: creation, loans, and what a call leaves behind *)

Module SatchelMore.
Import Satchel SatchelFacts.

(** *** Where [find_index] stops *)

Lemma find_index_split {T} (f : T → bool) v i :
  find_index f v = Some i →
  ∃ before x rest,
    v = before ++ x :: rest ∧ length before = i ∧ f x = true ∧
    Forall (λ y, f y = false) before ∧ delete i v = before ++ rest.
Proof.
  revert i. induction v as [|y v IH]; intros i; simpl; [done|].
  destruct (f y) eqn:Hy.
  - intros [= <-]. exists [], y, v. by repeat split.
  - destruct (find_index f v) as [j|] eqn:Hj; [|done].
    intros [= <-]. destruct (IH j eq_refl) as (before & x & rest & -> & <- & Hx & Hb & Hd).
    exists (y :: before), x, rest. simpl. rewrite Hd.
    repeat split; try done. by constructor.
Qed.

(** *** Inversions of the entry points *)

Lemma add_scroll_inv self cap scroll self' :
  add_scroll self cap scroll = Return (self', tt) →
  object_id self = cap_satchel_id cap ∧
  self' = mkSatchel (satchel_uid self) (scrolls self ++ [scroll]).
Proof.
  destruct (decide (object_id self = cap_satchel_id cap)) as [Hcap|Hcap].
  - rewrite add_scroll_authorised by done. by intros [= <-].
  - by rewrite add_scroll_unauthorised.
Qed.

Lemma remove_scroll_inv self cap scroll_id self' x :
  remove_scroll self cap scroll_id = Return (self', x) →
  object_id self = cap_satchel_id cap ∧
  ∃ i, find_index (has_id scroll_id) (scrolls self) = Some i ∧
       scrolls self !! i = Some x ∧ object_id x = scroll_id ∧
       self' = mkSatchel (satchel_uid self) (delete i (scrolls self)).
Proof.
  destruct (decide (object_id self = cap_satchel_id cap)) as [Hcap|Hcap].
  - destruct (find_index (has_id scroll_id) (scrolls self)) as [i|] eqn:Hidx.
    + destruct (remove_scroll_found _ _ _ _ Hcap Hidx) as (y & Hy & Hid & ->).
      intros [= <- <-]. split; [done|]. by exists i.
    + by rewrite remove_scroll_missing.
  - by rewrite remove_scroll_unauthorised.
Qed.

Lemma borrow_scroll_index self scroll_id self' x borrow :
  borrow_scroll self scroll_id = Return (self', (x, borrow)) →
  ∃ i, find_index (has_id scroll_id) (scrolls self) = Some i ∧
       scrolls self !! i = Some x ∧ object_id x = scroll_id ∧
       self' = mkSatchel (satchel_uid self) (delete i (scrolls self)) ∧
       borrow = mkBorrow (object_id self) scroll_id.
Proof.
  destruct (find_index (has_id scroll_id) (scrolls self)) as [i|] eqn:Hidx.
  - destruct (borrow_scroll_found _ _ _ Hidx) as (y & Hy & Hid & ->).
    intros [= <- <- <-]. by exists i.
  - by rewrite borrow_scroll_missing.
Qed.

Lemma return_scroll_inv self scroll borrow self' :
  return_scroll self scroll borrow = Return (self', tt) →
  object_id self = borrow_satchel_id borrow ∧
  object_id scroll = borrow_scroll_id borrow ∧
  self' = mkSatchel (satchel_uid self) (scrolls self ++ [scroll]).
Proof.
  destruct (decide (object_id self = borrow_satchel_id borrow ∧
                    object_id scroll = borrow_scroll_id borrow)) as [[Hs Hc]|Hno].
  - rewrite return_scroll_matching by done. by intros [= <-].
  - apply not_and_l in Hno. by rewrite return_scroll_mismatch.
Qed.

Lemma ids_delete (v : list Scroll) i x :
  v !! i = Some x →
  object_id <$> v ≡ₚ object_id x :: (object_id <$> delete i v).
Proof. intros Hx. by rewrite (delete_Permutation v i x) at 1. Qed.

(** *** Creation *)

(** X1: two satchels created one after the other get capabilities that
    open their own satchel and not the other one, for adding as for
    removing. *)
Theorem capabilities_are_not_interchangeable ctx scroll scroll_id :
  let '((s1, c1), ctx1) := new ctx in
  let '((s2, c2), _) := new ctx1 in
  scrolls s1 = [] ∧ scrolls s2 = [] ∧
  add_scroll s1 c1 scroll = Return (mkSatchel (satchel_uid s1) [scroll], tt) ∧
  add_scroll s2 c2 scroll = Return (mkSatchel (satchel_uid s2) [scroll], tt) ∧
  add_scroll s2 c1 scroll = Abort ENotYourSatchel ∧
  add_scroll s1 c2 scroll = Abort ENotYourSatchel ∧
  remove_scroll s2 c1 scroll_id = Abort ENotYourSatchel ∧
  remove_scroll s1 c2 scroll_id = Abort ENotYourSatchel.
Proof.
  unfold new, object_new; simpl.
  split; [done|]. split; [done|].
  split; [by apply add_scroll_authorised|].
  split; [by apply add_scroll_authorised|].
  repeat split;
    (apply add_scroll_unauthorised || apply remove_scroll_unauthorised);
    unfold object_id, object_uid, satchel_key; simpl; lia.
Qed.

(** *** Loans *)

(** X2: [borrow_scroll] hands out a scroll exactly when one of that
    identity is in the satchel, and then it is a scroll of the satchel
    with that identity, together with a receipt naming the satchel and the
    scroll; otherwise it aborts with [ENoScrollWithThisID] and the satchel
    is untouched. *)
Theorem borrow_scroll_spec self scroll_id :
  (scroll_id ∈ scroll_ids self →
   ∃ self' x,
     borrow_scroll self scroll_id =
       Return (self', (x, mkBorrow (object_id self) scroll_id)) ∧
     x ∈ scrolls self ∧ object_id x = scroll_id ∧
     object_id self' = object_id self ∧
     length (scrolls self) = S (length (scrolls self'))) ∧
  (scroll_id ∉ scroll_ids self →
   borrow_scroll self scroll_id = Abort ENoScrollWithThisID ∧
   after self (borrow_scroll self scroll_id) = self).
Proof.
  split.
  - intros Hin. unfold scroll_ids in Hin.
    apply list_elem_of_fmap in Hin as (y & -> & Hy).
    assert (is_Some (find_index (has_id (object_id y)) (scrolls self))) as [i Hi].
    { apply find_index_is_Some. exists y. split; [done|].
      by apply bool_decide_eq_true_2. }
    destruct (borrow_scroll_found _ _ _ Hi) as (x & Hx & Hid & ->).
    eexists _, x. split; [done|].
    split; [by eapply list_elem_of_lookup_2|]. split; [done|]. split; [done|].
    simpl. rewrite length_delete by eauto.
    apply lookup_lt_Some in Hx. lia.
  - intros Hout. apply has_id_false_iff, find_index_None in Hout.
    by rewrite borrow_scroll_missing.
Qed.

Lemma borrow_scroll_spec_witness :
  ∃ self' x,
    borrow_scroll Samples.my_satchel 11%N =
      Return (self', (x, mkBorrow (object_id Samples.my_satchel) 11%N)) ∧
    x ∈ scrolls Samples.my_satchel ∧ object_id x = 11%N ∧
    object_id self' = object_id Samples.my_satchel ∧
    length (scrolls Samples.my_satchel) = S (length (scrolls self')).
Proof.
  apply (borrow_scroll_spec Samples.my_satchel 11%N).
  apply (bool_decide_unpack _). vm_compute. exact I.
Defined.

(** X3: the receipt of a loan is good for one thing only: [return_scroll]
    accepts it exactly on the satchel that issued it and with a scroll of
    the borrowed identity, and aborts with [EInvalidReturn] in every other
    case. *)
Theorem receipt_is_bound self scroll_id self1 scroll borrow target scroll' :
  borrow_scroll self scroll_id = Return (self1, (scroll, borrow)) →
  ((object_id target = object_id self ∧ object_id scroll' = scroll_id) →
   return_scroll target scroll' borrow =
     Return (mkSatchel (satchel_uid target) (scrolls target ++ [scroll']), tt)) ∧
  (¬ (object_id target = object_id self ∧ object_id scroll' = scroll_id) →
   return_scroll target scroll' borrow = Abort EInvalidReturn).
Proof.
  intros Hb. destruct (borrow_scroll_index _ _ _ _ _ Hb) as (i & _ & _ & _ & _ & ->).
  split.
  - intros [Ht Hs]. by apply return_scroll_matching; simpl.
  - intros Hno. apply not_and_l in Hno. by apply return_scroll_mismatch; simpl.
Qed.

Lemma receipt_is_bound_witness :
  return_scroll (mkSatchel (mkUID 3%N) []) Samples.healing_scroll (mkBorrow 1%N 10%N)
    = Abort EInvalidReturn.
Proof.
  apply (receipt_is_bound Samples.my_satchel 10%N
           (mkSatchel (mkUID 1%N) [Samples.stamina_scroll])
           Samples.healing_scroll (mkBorrow 1%N 10%N)
           (mkSatchel (mkUID 3%N) []) Samples.healing_scroll).
  - reflexivity.
  - vm_compute. intros [Hid _]. discriminate Hid.
Defined.

(** X4: while a scroll is out on loan, the satchel no longer answers for
    its identity: a second loan, or a removal with the satchel's own
    capability, aborts with [ENoScrollWithThisID]. *)
Theorem borrowed_scroll_is_out self scroll_id self1 scroll borrow cap :
  unique_ids self →
  borrow_scroll self scroll_id = Return (self1, (scroll, borrow)) →
  (scroll_id ∉ scroll_ids self1) ∧
  borrow_scroll self1 scroll_id = Abort ENoScrollWithThisID ∧
  (object_id self1 = cap_satchel_id cap →
   remove_scroll self1 cap scroll_id = Abort ENoScrollWithThisID).
Proof.
  intros Hnd Hb.
  destruct (borrow_scroll_index _ _ _ _ _ Hb) as (i & _ & Hi & Hid & -> & _).
  assert (scroll_id ∉ scroll_ids (mkSatchel (satchel_uid self) (delete i (scrolls self))))
    as Hout.
  { unfold unique_ids, scroll_ids in *. simpl.
    rewrite (ids_delete _ _ _ Hi), NoDup_cons in Hnd.
    destruct Hnd as [Hnd _]. by rewrite <- Hid. }
  split; [done|].
  pose proof Hout as Hnone. apply has_id_false_iff, find_index_None in Hnone.
  split; [by apply borrow_scroll_missing|].
  intros Hcap. by apply remove_scroll_missing.
Qed.

Lemma borrowed_scroll_is_out_witness :
  (10%N ∉ scroll_ids (mkSatchel (mkUID 1%N) [Samples.stamina_scroll])) ∧
  borrow_scroll (mkSatchel (mkUID 1%N) [Samples.stamina_scroll]) 10%N
    = Abort ENoScrollWithThisID ∧
  (object_id (mkSatchel (mkUID 1%N) [Samples.stamina_scroll])
     = cap_satchel_id Samples.my_cap →
   remove_scroll (mkSatchel (mkUID 1%N) [Samples.stamina_scroll]) Samples.my_cap 10%N
     = Abort ENoScrollWithThisID).
Proof.
  apply (borrowed_scroll_is_out Samples.my_satchel 10%N _ Samples.healing_scroll
           (mkBorrow 1%N 10%N) Samples.my_cap).
  - unfold unique_ids. compute_done.
  - reflexivity.
Defined.

(** *** What a call leaves behind *)

(** X5: [remove_scroll] and [borrow_scroll] take out the first scroll of
    the requested identity and nothing else: the scrolls before it carry
    another identity, and the scrolls around it stay, in their order. *)
Theorem first_match_is_taken self cap scroll_id :
  (∀ self' x,
     remove_scroll self cap scroll_id = Return (self', x) →
     ∃ before rest,
       scrolls self = before ++ x :: rest ∧ scrolls self' = before ++ rest ∧
       object_id x = scroll_id ∧ (scroll_id ∉ object_id <$> before) ∧
       satchel_uid self' = satchel_uid self) ∧
  (∀ self' x borrow,
     borrow_scroll self scroll_id = Return (self', (x, borrow)) →
     ∃ before rest,
       scrolls self = before ++ x :: rest ∧ scrolls self' = before ++ rest ∧
       object_id x = scroll_id ∧ (scroll_id ∉ object_id <$> before) ∧
       satchel_uid self' = satchel_uid self).
Proof.
  assert (∀ i x, find_index (has_id scroll_id) (scrolls self) = Some i →
                 scrolls self !! i = Some x →
                 ∃ before rest,
                   scrolls self = before ++ x :: rest ∧
                   delete i (scrolls self) = before ++ rest ∧
                   (scroll_id ∉ object_id <$> before)) as Hsplit.
  { intros i x Hi Hx.
    destruct (find_index_split _ _ _ Hi) as (before & y & rest & Hv & Hlen & _ & Hb & Hd).
    assert (y = x) as ->.
    { rewrite Hv, <- Hlen, list_lookup_middle in Hx by done. by injection Hx. }
    exists before, rest. split; [done|]. split; [done|]. by apply has_id_false_iff. }
  split.
  - intros self' x Hr.
    destruct (remove_scroll_inv _ _ _ _ _ Hr) as (_ & i & Hi & Hx & Hid & ->).
    destruct (Hsplit i x Hi Hx) as (before & rest & Hv & Hd & Hb).
    exists before, rest. by repeat split.
  - intros self' x borrow Hr.
    destruct (borrow_scroll_index _ _ _ _ _ Hr) as (i & Hi & Hx & Hid & -> & _).
    destruct (Hsplit i x Hi Hx) as (before & rest & Hv & Hd & Hb).
    exists before, rest. by repeat split.
Qed.

Lemma first_match_is_taken_witness :
  ∃ before rest,
    scrolls Samples.my_satchel = before ++ Samples.stamina_scroll :: rest ∧
    scrolls (mkSatchel (mkUID 1%N) [Samples.healing_scroll]) = before ++ rest ∧
    object_id Samples.stamina_scroll = 11%N ∧ (11%N ∉ object_id <$> before) ∧
    satchel_uid (mkSatchel (mkUID 1%N) [Samples.healing_scroll])
      = satchel_uid Samples.my_satchel.
Proof.
  destruct (first_match_is_taken Samples.my_satchel Samples.my_cap 11%N) as [Hremove _].
  apply Hremove. reflexivity.
Defined.

(** X6: the entry points keep the identities of the scrolls in a satchel
    pairwise distinct, as long as a scroll that comes in is not already
    there. *)
Theorem unique_ids_preserved cap op self self' out :
  legal op self →
  mutate_with cap op self = Return (self', out) →
  unique_ids self'.
Proof.
  intros [Hnd Hfresh] Hcall. unfold unique_ids, scroll_ids in *.
  destruct op as [scroll|scroll_id|scroll_id|scroll borrow]; simpl in Hcall.
  - destruct (add_scroll self cap scroll) as [[s []]|] eqn:Hadd; [|done].
    injection Hcall as <- _. apply add_scroll_inv in Hadd as [_ ->]. simpl.
    rewrite fmap_app. apply NoDup_app. split; [done|]. split.
    + intros y Hy [->|[]%elem_of_nil]%elem_of_cons. done.
    + apply NoDup_singleton.
  - destruct (remove_scroll self cap scroll_id) as [[s x]|] eqn:Hrem; [|done].
    injection Hcall as <- _.
    apply remove_scroll_inv in Hrem as (_ & i & _ & Hx & _ & ->). simpl.
    rewrite (ids_delete _ _ _ Hx), NoDup_cons in Hnd. by destruct Hnd.
  - destruct (borrow_scroll self scroll_id) as [[s [x b]]|] eqn:Hbor; [|done].
    injection Hcall as <- _.
    apply borrow_scroll_index in Hbor as (i & _ & Hx & _ & -> & _). simpl.
    rewrite (ids_delete _ _ _ Hx), NoDup_cons in Hnd. by destruct Hnd.
  - destruct (return_scroll self scroll borrow) as [[s []]|] eqn:Hret; [|done].
    injection Hcall as <- _. apply return_scroll_inv in Hret as (_ & _ & ->). simpl.
    rewrite fmap_app. apply NoDup_app. split; [done|]. split.
    + intros y Hy [->|[]%elem_of_nil]%elem_of_cons. done.
    + apply NoDup_singleton.
Qed.

Lemma unique_ids_preserved_witness :
  unique_ids (mkSatchel (mkUID 1%N)
                [Samples.healing_scroll; Samples.stamina_scroll; Samples.haste_scroll]).
Proof.
  apply (unique_ids_preserved Samples.my_cap (OpAdd Samples.haste_scroll)
           Samples.my_satchel _ OutUnit).
  - split; [unfold unique_ids|]; compute_done.
  - reflexivity.
Defined.

(** X7: two scrolls can be added in either order: both orders succeed
    with the satchel's capability and leave satchels with the same
    contents, which no legal sequence of calls tells apart. *)
Theorem add_scroll_commutes self cap a b :
  object_id self = cap_satchel_id cap →
  ∃ s_ab s_ba,
    ('(s, _) ← add_scroll self cap a; add_scroll s cap b) = Return (s_ab, tt) ∧
    ('(s, _) ← add_scroll self cap b; add_scroll s cap a) = Return (s_ba, tt) ∧
    same_contents s_ab s_ba ∧ indistinguishable s_ab s_ba.
Proof.
  intros Hcap.
  exists (mkSatchel (satchel_uid self) ((scrolls self ++ [a]) ++ [b])),
         (mkSatchel (satchel_uid self) ((scrolls self ++ [b]) ++ [a])).
  assert (same_contents
            (mkSatchel (satchel_uid self) ((scrolls self ++ [a]) ++ [b]))
            (mkSatchel (satchel_uid self) ((scrolls self ++ [b]) ++ [a]))) as Hsame.
  { split; [done|]. simpl. rewrite <- !(assoc_L (++)).
    apply Permutation_app_head, Permutation_app_comm. }
  split; [|split; [|split; [done|by apply same_contents_indistinguishable]]].
  - rewrite add_scroll_authorised by done. simpl.
    by rewrite add_scroll_authorised by done.
  - rewrite add_scroll_authorised by done. simpl.
    by rewrite add_scroll_authorised by done.
Qed.

Lemma add_scroll_commutes_witness :
  ∃ s_ab s_ba,
    ('(s, _) ← add_scroll Samples.my_satchel Samples.my_cap Samples.haste_scroll;
     add_scroll s Samples.my_cap Samples.healing_scroll) = Return (s_ab, tt) ∧
    ('(s, _) ← add_scroll Samples.my_satchel Samples.my_cap Samples.healing_scroll;
     add_scroll s Samples.my_cap Samples.haste_scroll) = Return (s_ba, tt) ∧
    same_contents s_ab s_ba ∧ indistinguishable s_ab s_ba.
Proof.
  apply (add_scroll_commutes Samples.my_satchel Samples.my_cap). reflexivity.
Defined.

(** X18: the entry points abort with the codes of the module only: the
    index handed to [vector::remove] is always in bounds and the option
    handed to [extract] is never empty. *)
Theorem aborts_are_the_modules_own cap op self code :
  mutate_with cap op self = Abort code →
  match op with
  | OpAdd _ => code = ENotYourSatchel
  | OpRemove _ => code = ENotYourSatchel ∨ code = ENoScrollWithThisID
  | OpBorrow _ => code = ENoScrollWithThisID
  | OpReturn _ _ => code = EInvalidReturn
  end.
Proof.
  destruct op as [scroll|scroll_id|scroll_id|scroll borrow]; simpl.
  - destruct (decide (object_id self = cap_satchel_id cap)) as [Hcap|Hcap].
    + by rewrite add_scroll_authorised.
    + rewrite add_scroll_unauthorised by done. by intros [= <-].
  - destruct (decide (object_id self = cap_satchel_id cap)) as [Hcap|Hcap].
    + destruct (find_index (has_id scroll_id) (scrolls self)) as [i|] eqn:Hidx.
      * by destruct (remove_scroll_found _ _ _ _ Hcap Hidx) as (x & _ & _ & ->).
      * rewrite remove_scroll_missing by done. intros [= <-]. by right.
    + rewrite remove_scroll_unauthorised by done. intros [= <-]. by left.
  - destruct (find_index (has_id scroll_id) (scrolls self)) as [i|] eqn:Hidx.
    + by destruct (borrow_scroll_found _ _ _ Hidx) as (x & _ & _ & ->).
    + rewrite borrow_scroll_missing by done. by intros [= <-].
  - destruct (decide (object_id self = borrow_satchel_id borrow ∧
                      object_id scroll = borrow_scroll_id borrow)) as [[Hs Hc]|Hno].
    + by rewrite return_scroll_matching.
    + apply not_and_l in Hno. rewrite return_scroll_mismatch by done. by intros [= <-].
Qed.

Lemma aborts_are_the_modules_own_witness :
  ENoScrollWithThisID = ENotYourSatchel ∨ ENoScrollWithThisID = ENoScrollWithThisID.
Proof.
  apply (aborts_are_the_modules_own Samples.my_cap (OpRemove 12%N) Samples.my_satchel).
  reflexivity.
Defined.

End SatchelMore.

(** ** More on the orchestrator: lookups, submissions and built transactions *)

Module MarketplaceMore.
Import Marketplace MarketplaceFacts Notions.

Section more.
Context `{Environment}.

(** *** [getKiosk], in full *)

Lemma getKiosk_unfold address flag w :
  (getKiosk address flag w).1 =
    match filter (λ e, owned_by address (cap_type flag) e = true)
                 (map_to_list (objects w)) with
    | [] => Ok None
    | e :: _ =>
        if flag then
          match stored_content e.2 with
          | PersonalKioskCapParsedData f =>
              Ok (Some {| id := koc_for (pkc_cap f); capId := e.1; isPersonal := false |})
          | _ => Throw TypeError
          end
        else
          match stored_content e.2 with
          | KioskOwnerCapParsedData f =>
              Ok (Some {| id := koc_for f; capId := e.1; isPersonal := false |})
          | _ => Throw TypeError
          end
    end.
Proof.
  unfold getKiosk, getOwnedObjects. unfold mbind at 1. unfold rpc_bind.
  fold (cap_type flag).
  destruct (filter _ (map_to_list (objects w))) as [|[oid o] l]; [done|].
  simpl.
  destruct flag; destruct (stored_content o); reflexivity.
Qed.

Lemma owned_by_spec address ty (w : World) oid o :
  (oid, o) ∈ filter (λ e, owned_by address ty e = true) (map_to_list (objects w)) ↔
  objects w !! oid = Some o ∧ owner o = AddressOwner address ∧ struct_type o = ty.
Proof.
  rewrite list_elem_of_filter, elem_of_map_to_list. unfold owned_by. simpl.
  rewrite bool_decide_eq_true.
  split; [intros [[Hown Hty] Hlookup]|intros (Hlookup & Hown & Hty)]; done.
Qed.

(** X8: [getKiosk] answers [undefined] exactly when the address owns no
    object of the capability type it filters on. *)
Theorem getKiosk_undefined_iff address flag w :
  (getKiosk address flag w).1 = Ok None ↔ holds_none w address (cap_type flag).
Proof.
  split; [|by intros ->%getKiosk_none].
  rewrite getKiosk_unfold.
  destruct (filter _ (map_to_list (objects w))) as [|[oid o] l] eqn:Hfilter.
  - intros _ i x Hx [Hown Hty].
    assert ((i, x) ∈ filter (λ e, owned_by address (cap_type flag) e = true)
                       (map_to_list (objects w))) as Hin by by apply owned_by_spec.
    rewrite Hfilter in Hin. by apply elem_of_nil in Hin.
  - destruct flag; destruct (stored_content (oid, o).2); done.
Qed.

(** X9: a kiosk found by [getKiosk] comes from an object of the store
    that the address owns and that has the capability type asked for: its
    [capId] is the id of that object and its [id] is the kiosk the
    capability, or the capability wrapped in it, is for. *)
Theorem getKiosk_sound address flag w k :
  (getKiosk address flag w).1 = Ok (Some k) →
  ∃ o,
    objects w !! capId k = Some o ∧
    owner o = AddressOwner address ∧
    struct_type o = cap_type flag ∧
    if flag
    then ∃ f, stored_content o = PersonalKioskCapParsedData f ∧ id k = koc_for (pkc_cap f)
    else ∃ f, stored_content o = KioskOwnerCapParsedData f ∧ id k = koc_for f.
Proof.
  rewrite getKiosk_unfold.
  destruct (filter _ (map_to_list (objects w))) as [|[oid o] l] eqn:Hfilter; [done|].
  assert ((oid, o) ∈ filter (λ e, owned_by address (cap_type flag) e = true)
                       (map_to_list (objects w))) as Hin.
  { rewrite Hfilter. apply elem_of_cons. by left. }
  apply owned_by_spec in Hin as (Hlookup & Hown & Hty).
  simpl. destruct flag; destruct (stored_content o) as [f|f|f|f|] eqn:Hc;
    intros [= <-]; exists o; simpl; eauto 10.
Qed.

(** *** Every way through [purchase] *)

Lemma purchase_without_royalty signer from sword w k lo lf :
  (getKiosk signer true w).1 = Ok (Some k) →
  objects w !! listing_field_id from sword false = Some lo →
  stored_content lo = KioskListingParsedData lf →
  objects w !! royalty_field_id = None →
  purchase signer from sword w = (Throw (RoyaltyConfigNotFound policyId), w).
Proof.
  intros Hk%getKiosk_result Hl Hlf Hr. unfold purchase, mbind, rpc_bind. rewrite Hk.
  unfold getObject. rewrite Hl. simpl. rewrite Hlf. simpl. by rewrite Hr.
Qed.

Lemma purchase_result signer from sword w k lo lf ro rc :
  (getKiosk signer true w).1 = Ok (Some k) →
  objects w !! listing_field_id from sword false = Some lo →
  stored_content lo = KioskListingParsedData lf →
  objects w !! royalty_field_id = Some ro →
  stored_content ro = RoyaltyRuleConfigDFParsedData rc →
  purchase signer from sword w =
    let tx := settlement k from sword lf rc in
    let outcome := execute tx signer (objects w) in
    (if bool_decide (effects outcome.1 = Some success)
     then Ok outcome.1 else Throw (PurchaseFailed outcome.1),
     {| objects := outcome.2; submitted := submitted w ++ [(tx, signer)] |}).
Proof.
  intros Hk%getKiosk_result Hl Hlf Hr Hrc. unfold purchase, mbind, rpc_bind. rewrite Hk.
  unfold getObject. rewrite Hl. simpl. rewrite Hlf. simpl.
  rewrite Hr. simpl. rewrite Hrc. simpl.
  unfold signAndExecuteTransaction, settlement.
  destruct (execute _ signer (objects w)) as [resp objs]. simpl.
  by destruct (bool_decide (effects resp = Some success)).
Qed.

Lemma purchase_type_error_listing signer from sword w k lo :
  (getKiosk signer true w).1 = Ok (Some k) →
  objects w !! listing_field_id from sword false = Some lo →
  (∀ lf, stored_content lo ≠ KioskListingParsedData lf) →
  purchase signer from sword w = (Throw TypeError, w).
Proof.
  intros Hk%getKiosk_result Hl Hlf. unfold purchase, mbind, rpc_bind. rewrite Hk.
  unfold getObject. rewrite Hl. simpl.
  destruct (stored_content lo) as [f|f|f|f|]; try done. by destruct (Hlf f).
Qed.

Lemma purchase_type_error_royalty signer from sword w k lo lf ro :
  (getKiosk signer true w).1 = Ok (Some k) →
  objects w !! listing_field_id from sword false = Some lo →
  stored_content lo = KioskListingParsedData lf →
  objects w !! royalty_field_id = Some ro →
  (∀ rc, stored_content ro ≠ RoyaltyRuleConfigDFParsedData rc) →
  purchase signer from sword w = (Throw TypeError, w).
Proof.
  intros Hk%getKiosk_result Hl Hlf Hr Hrc. unfold purchase, mbind, rpc_bind. rewrite Hk.
  unfold getObject. rewrite Hl. simpl. rewrite Hlf. simpl. rewrite Hr. simpl.
  destruct (stored_content ro) as [f|f|f|f|]; try done. by destruct (Hrc f).
Qed.

(** X10: when the buyer's kiosk and the listing are found but the policy
    carries no royalty configuration, [purchase] throws "Could not find
    royalty rule config in policy: ..." and submits nothing. *)
Theorem royalty_config_missing signer from sword w k lo lf :
  (getKiosk signer true w).1 = Ok (Some k) →
  objects w !! listing_field_id from sword false = Some lo →
  stored_content lo = KioskListingParsedData lf →
  objects w !! royalty_field_id = None →
  purchase signer from sword w = (Throw (RoyaltyConfigNotFound policyId), w) ∧
  message (RoyaltyConfigNotFound policyId) =
    "Could not find royalty rule config in policy: " +:+ policyId.
Proof. intros Hk Hl Hlf Hr. split; [by eapply purchase_without_royalty|done]. Qed.

(** X11: whatever the world, [purchase] either throws with the world
    untouched, or has submitted exactly one transaction, signed by the
    buyer, and the store is what the ledger made of it; it never submits
    twice and never changes the store on its own. *)
Theorem purchase_submits_at_most_once signer from sword w :
  (∃ e, purchase signer from sword w = (Throw e, w)) ∨
  (∃ tx,
     submitted (purchase signer from sword w).2 = submitted w ++ [(tx, signer)] ∧
     objects (purchase signer from sword w).2 = (execute tx signer (objects w)).2).
Proof.
  destruct ((getKiosk signer true w).1) as [[k|]|e] eqn:Hk.
  - destruct (objects w !! listing_field_id from sword false) as [lo|] eqn:Hl.
    + destruct (stored_content lo) as [f|f|lf|f|] eqn:Hlf;
        try (left; eexists; eapply purchase_type_error_listing; [done..|];
             intros ?; by rewrite Hlf).
      destruct (objects w !! royalty_field_id) as [ro|] eqn:Hr.
      * destruct (stored_content ro) as [f|f|f|rc|] eqn:Hrc;
          try (left; eexists; eapply purchase_type_error_royalty; [done..|];
               intros ?; by rewrite Hrc).
        right. exists (settlement k from sword lf rc).
        by rewrite (purchase_result _ _ _ _ _ _ _ _ _ Hk Hl Hlf Hr Hrc).
      * left. eexists. by eapply purchase_without_royalty.
    + left. eexists. by eapply purchase_without_listing.
  - left. eexists. by apply purchase_without_kiosk.
  - left. eexists. by apply purchase_kiosk_throws.
Qed.

(** X13: a listing whose value is the decimal form of a price [n] of at
    most [2^53] is paid with a coin of exactly that amount: the amount
    string handed to [splitCoins] is the listing's value, and it reads
    back as [n]. *)
Theorem price_round_trip k from sword lf rc (n : N) :
  (n ≤ 2 ^ 53)%N →
  klf_value lf = toString (Some (Z.of_N n)) →
  ∃ royalty rest,
    settlement k from sword lf rc =
      SplitCoins GasCoin [AmountString (klf_value lf); AmountNumber royalty] :: rest ∧
    amount_value (AmountString (klf_value lf)) = Num (Qc_of_Z (Z.of_N n)).
Proof.
  intros _ Hvalue.
  exists (royaltiesAmount (parseInt (klf_value lf)) (rrc_value rc)),
         (tail (settlement k from sword lf rc)).
  split.
  - assert (toString (parseInt (klf_value lf)) = klf_value lf) as Hback.
    { by rewrite Hvalue, parseInt_toString. }
    assert (settlement k from sword lf rc =
              SplitCoins GasCoin
                [AmountString (toString (parseInt (klf_value lf)));
                 AmountNumber (royaltiesAmount (parseInt (klf_value lf)) (rrc_value rc))]
              :: tail (settlement k from sword lf rc)) as Hhead by reflexivity.
    rewrite Hhead at 1. by rewrite Hback.
  - rewrite Hvalue. apply amount_value_toString.
Qed.

(** *** [placeAndListInKiosk] and the two creations *)

Lemma placeAndListInKiosk_in signer given found sword price w :
  (match given with
   | Some k => Some k = Some found
   | None => (getKiosk signer false w).1 = Ok (Some found)
   end) →
  submitted (placeAndListInKiosk signer given sword price w).2
    = submitted w ++ [(place_and_list found sword price, signer)].
Proof.
  intros Hfound. unfold placeAndListInKiosk. unfold mbind at 1. unfold rpc_bind.
  assert (match given with Some k => mret (Some k) | None => getKiosk signer false end w
          = (Ok (Some found), w)) as ->.
  { destruct given as [k|]; [by injection Hfound as ->|by apply getKiosk_result]. }
  unfold mbind, rpc_bind, signAndExecuteTransaction.
  change (build _) with (place_and_list found sword price).
  destruct (execute _ signer (objects w)) as [resp objs]. simpl.
  by destruct (bool_decide (effects resp = Some success)).
Qed.

Lemma createKiosk_result signer w :
  createKiosk signer w =
    let outcome := execute (createKiosk_transaction signer) signer (objects w) in
    (if bool_decide (effects outcome.1 = Some success)
     then Ok outcome.1 else Throw (CreateKioskFailed outcome.1),
     {| objects := outcome.2;
        submitted := submitted w ++ [(createKiosk_transaction signer, signer)] |}).
Proof.
  unfold createKiosk, mbind, rpc_bind, signAndExecuteTransaction.
  change (build _) with (createKiosk_transaction signer).
  destruct (execute _ signer (objects w)) as [resp objs]. simpl.
  by destruct (bool_decide (effects resp = Some success)).
Qed.

Lemma createPersonalKiosk_result signer w :
  createPersonalKiosk signer w =
    let outcome := execute createPersonalKiosk_transaction signer (objects w) in
    (if bool_decide (effects outcome.1 = Some success)
     then Ok outcome.1 else Throw (CreateKioskFailed outcome.1),
     {| objects := outcome.2;
        submitted := submitted w ++ [(createPersonalKiosk_transaction, signer)] |}).
Proof.
  unfold createPersonalKiosk, mbind, rpc_bind, signAndExecuteTransaction.
  change (build _) with createPersonalKiosk_transaction.
  destruct (execute _ signer (objects w)) as [resp objs]. simpl.
  by destruct (bool_decide (effects resp = Some success)).
Qed.


(** *** Built transactions *)

Lemma purchase_submitted signer from sword w tx s :
  (tx, s) ∈ submitted (purchase signer from sword w).2 →
  (tx, s) ∈ submitted w ∨ ∃ k lf rc, tx = settlement k from sword lf rc.
Proof.
  intros Hin.
  destruct ((getKiosk signer true w).1) as [[k|]|e] eqn:Hk.
  - destruct (objects w !! listing_field_id from sword false) as [lo|] eqn:Hl.
    + destruct (stored_content lo) as [f|f|lf|f|] eqn:Hlf;
        try (rewrite (purchase_type_error_listing signer from sword w k lo) in Hin;
             [by left|done..|intros ?; by rewrite Hlf]).
      destruct (objects w !! royalty_field_id) as [ro|] eqn:Hr.
      * destruct (stored_content ro) as [f|f|f|rc|] eqn:Hrc;
          try (rewrite (purchase_type_error_royalty signer from sword w k lo lf ro) in Hin;
               [by left|done..|intros ?; by rewrite Hrc]).
        rewrite (purchase_result _ _ _ _ _ _ _ _ _ Hk Hl Hlf Hr Hrc) in Hin.
        cbv zeta in Hin. simpl in Hin.
        apply elem_of_app in Hin as [Hin|Hin]; [by left|].
        apply list_elem_of_singleton in Hin as [= -> _]. right. eauto.
      * rewrite (purchase_without_royalty _ _ _ _ _ _ _ Hk Hl Hlf Hr) in Hin. by left.
    + rewrite (purchase_without_listing _ _ _ _ _ Hk Hl) in Hin. by left.
  - rewrite (purchase_without_kiosk _ _ _ _ Hk) in Hin. by left.
  - rewrite (purchase_kiosk_throws _ _ _ _ _ Hk) in Hin. by left.
Qed.

(** X16: every transaction the four functions submit uses a result only
    after the command that produces it. *)
Theorem submitted_transactions_are_well_scoped signer from sword given price w tx s :
  (tx, s) ∈ submitted (purchase signer from sword w).2 ∨
  (tx, s) ∈ submitted (placeAndListInKiosk signer given sword price w).2 ∨
  (tx, s) ∈ submitted (createKiosk signer w).2 ∨
  (tx, s) ∈ submitted (createPersonalKiosk signer w).2 →
  (tx, s) ∈ submitted w ∨ well_scoped tx = true.
Proof.
  intros [Hin|[Hin|[Hin|Hin]]].
  - apply purchase_submitted in Hin as [Hin|(k & lf & rc & ->)]; [by left|by right].
  - assert (∀ k, (tx, s) ∈ submitted w ++ [(place_and_list k sword price, signer)] →
                 (tx, s) ∈ submitted w ∨ well_scoped tx = true) as Hplace.
    { intros k [Hold|Hnew]%elem_of_app; [by left|].
      apply list_elem_of_singleton in Hnew as [= -> _]. by right. }
    destruct given as [k|].
    + rewrite (placeAndListInKiosk_in signer (Some k) k) in Hin by done. by eapply Hplace.
    + destruct ((getKiosk signer false w).1) as [[k|]|e] eqn:Hk.
      * rewrite (placeAndListInKiosk_in signer None k) in Hin by done. by eapply Hplace.
      * apply getKiosk_result in Hk. left. revert Hin.
        unfold placeAndListInKiosk. unfold mbind at 1. unfold rpc_bind. by rewrite Hk.
      * apply getKiosk_result in Hk. left. revert Hin.
        unfold placeAndListInKiosk. unfold mbind at 1. unfold rpc_bind. by rewrite Hk.
  - rewrite createKiosk_result in Hin. cbv zeta in Hin. simpl in Hin.
    apply elem_of_app in Hin as [Hin|Hin]; [by left|].
    apply list_elem_of_singleton in Hin as [= -> _]. by right.
  - rewrite createPersonalKiosk_result in Hin. cbv zeta in Hin. simpl in Hin.
    apply elem_of_app in Hin as [Hin|Hin]; [by left|].
    apply list_elem_of_singleton in Hin as [= -> _]. by right.
Qed.


(** *** Field ids *)

Lemma bcs_Listing_inj l l' :
  addresses_distinct → bcs_Listing l = bcs_Listing l' → l = l'.
Proof.
  intros Haddr. destruct l as [a e], l' as [a' e']. unfold bcs_Listing, bcs_bool; simpl.
  intros [Ha He]%app_inj_2; [|done].
  apply Haddr in Ha as ->. by destruct e, e'.
Qed.

(** X17: with a collision-free derivation and one encoding per address,
    the listing fields of different kiosks, swords or exclusivity flags
    have different ids, and none of them is the id of the royalty
    configuration: the lookups of [purchase] cannot take one for
    another. *)
Theorem field_ids_are_distinct kiosk sword exclusive kiosk' sword' exclusive' :
  collision_free → addresses_distinct →
  (listing_field_id kiosk sword exclusive = listing_field_id kiosk' sword' exclusive' →
   kiosk = kiosk' ∧ sword = sword' ∧ exclusive = exclusive') ∧
  listing_field_id kiosk sword exclusive ≠ royalty_field_id.
Proof.
  intros Hfree Haddr. split.
  - intros (-> & _ & Hkey%bcs_Listing_inj)%Hfree; [|done]. by injection Hkey as -> ->.
  - intros (_ & Hty & _)%Hfree. unfold ruleConfigKeyType in Hty. discriminate Hty.
Qed.
End more.

(** *** The theorems at work on the sample worlds *)

Lemma getKiosk_undefined_iff_witness :
  (@getKiosk Samples.sample_env Samples.buyer false Samples.market).1 = Ok None.
Proof.
  apply (@getKiosk_undefined_iff Samples.sample_env Samples.buyer false Samples.market).
  unfold holds_none. apply (bool_decide_unpack _). vm_compute. exact I.
Defined.

Lemma getKiosk_sound_witness :
  ∃ o,
    objects seller_world !! "0x5ca9" = Some o ∧
    owner o = AddressOwner seller ∧
    struct_type o = "0x2::kiosk::KioskOwnerCap" ∧
    ∃ f, stored_content o = KioskOwnerCapParsedData f ∧ Samples.seller_kiosk = koc_for f.
Proof.
  apply (@getKiosk_sound Samples.sample_env seller false seller_world seller_kiosk_data).
  vm_compute. reflexivity.
Defined.

Lemma royalty_config_missing_witness :
  @purchase Samples.sample_env Samples.buyer Samples.seller_kiosk Samples.sword
    market_without_royalty
  = (Throw (RoyaltyConfigNotFound "0x9011c7"), market_without_royalty).
Proof.
  apply (@royalty_config_missing Samples.sample_env Samples.buyer Samples.seller_kiosk
           Samples.sword market_without_royalty Samples.sample_kiosk
           (Samples.listing_object false "100")
           {| klf_id := @listing_field_id Samples.sample_env
                          Samples.seller_kiosk Samples.sword false;
              klf_name := {| listing_id := Samples.sword; is_exclusive := false |};
              klf_value := "100" |}).
  - vm_compute. reflexivity.
  - vm_compute. reflexivity.
  - reflexivity.
  - vm_compute. reflexivity.
Defined.

Lemma price_round_trip_witness :
  ∃ royalty rest,
    @settlement Samples.sample_env Samples.sample_kiosk Samples.seller_kiosk Samples.sword
      {| klf_id := "0xf1e1d"; klf_name := {| listing_id := Samples.sword;
                                             is_exclusive := false |};
         klf_value := "18000000000" |}
      {| rrc_id := "0xf1e1e"; rrc_value := {| amount_bp := 200; min_amount := "5" |} |}
    = SplitCoins GasCoin [AmountString "18000000000"; AmountNumber royalty] :: rest ∧
    @amount_value (AmountString "18000000000") = Num (Qc_of_Z 18000000000).
Proof.
  apply (@price_round_trip Samples.sample_env Samples.sample_kiosk Samples.seller_kiosk
           Samples.sword
           {| klf_id := "0xf1e1d"; klf_name := {| listing_id := Samples.sword;
                                                  is_exclusive := false |};
              klf_value := "18000000000" |}
           {| rrc_id := "0xf1e1e";
              rrc_value := {| amount_bp := 200; min_amount := "5" |} |}
           18000000000%N).
  - vm_compute. discriminate.
  - reflexivity.
Defined.

Lemma submitted_transactions_are_well_scoped_witness :
  well_scoped (@createPersonalKiosk_transaction Samples.sample_env) = true.
Proof.
  destruct (@submitted_transactions_are_well_scoped Samples.sample_env Samples.buyer
              Samples.seller_kiosk Samples.sword None (Num (Qc_of_Z 100)) Samples.market
              (@createPersonalKiosk_transaction Samples.sample_env) Samples.buyer)
    as [Hold|Hscoped].
  - right. right. right. rewrite createPersonalKiosk_result. cbv zeta. simpl.
    apply elem_of_cons. by left.
  - simpl in Hold. by apply elem_of_nil in Hold.
  - exact Hscoped.
Defined.

Lemma sample_collision_free : @collision_free Samples.sample_env.
Proof.
  intros p t k p' t' k' Heq. simpl in Heq.
  apply (inj pretty), (inj encode) in Heq. injection Heq as -> -> Hk.
  split; [done|]. split; [done|].
  revert k' Hk. induction k as [|b k IH]; intros [|b' k']; simpl; try done.
  intros [= Hb Hk]. f_equal; [|by apply IH].
  apply (f_equal Byte.of_N) in Hb. rewrite !Byte.of_to_N in Hb. by injection Hb.
Qed.

Lemma sample_addresses_distinct : @addresses_distinct Samples.sample_env.
Proof.
  intros a a' Heq. simpl in Heq.
  by rewrite <- (String.string_of_list_byte_of_string a),
             <- (String.string_of_list_byte_of_string a'), Heq.
Qed.

Lemma field_ids_are_distinct_witness :
  @listing_field_id Samples.sample_env Samples.seller_kiosk Samples.sword true
    ≠ @royalty_field_id Samples.sample_env.
Proof.
  apply (@field_ids_are_distinct Samples.sample_env Samples.seller_kiosk Samples.sword
           true Samples.seller_kiosk Samples.sword true
           sample_collision_free sample_addresses_distinct).
Defined.

End MarketplaceMore.

(** ** Facts on the orchestrator with the builder's u64 encoding *)

Module EncodedFacts.
Import Marketplace MarketplaceFacts MarketplaceMore Notions.
Import (hints) Encoded.

(** *** Which numbers are u64 *)

Lemma is_u64_whole z : Encoded.is_u64 (Num (Qc_of_Z z)) = bool_decide (0 ≤ z < 2 ^ 64)%Z.
Proof.
  unfold Encoded.is_u64, Qc_of_Z. cbn [this inject_Z Qden Qnum].
  apply bool_decide_ext. intuition.
Qed.

Lemma whole_of_denominator (r : Qc) :
  Qden (this r) = 1%positive → r = Qc_of_Z (Qnum (this r)).
Proof.
  destruct r as [[n d] Hcanon]. simpl. intros ->.
  by apply Qc_is_canon.
Qed.

Lemma is_u64_fraction (r : Qc) : (∀ z, r ≠ Qc_of_Z z) → Encoded.is_u64 (Num r) = false.
Proof.
  intros Hfraction. unfold Encoded.is_u64. apply bool_decide_eq_false_2.
  intros [Hden _]. by apply (Hfraction (Qnum (this r))), whole_of_denominator.
Qed.

Lemma is_u64_exactly_representable z :
  Encoded.exactly_representable z → Encoded.is_u64 (Num (Qc_of_Z z)) = true.
Proof.
  intros [Hlow Hhigh]. rewrite is_u64_whole. apply bool_decide_eq_true_2.
  split; [done|]. eapply Z.le_lt_trans; [exact Hhigh|]. done.
Qed.


Section facts.
Context `{Environment}.

(** *** The transaction is built, or the builder throws *)

Lemma purchase_transaction_encoded k from sword price royalty :
  Encoded.build (Encoded.purchase_transaction k from sword price royalty) =
    if Encoded.is_u64 (of_integer price) then
      if Encoded.is_u64 royalty then
        Ok (build (purchase_transaction k from sword price royalty))
      else Throw (NotU64 (AmountNumber royalty))
    else Throw (NotU64 (AmountString (toString price))).
Proof.
  unfold Encoded.build, Encoded.purchase_transaction.
  unfold mbind at 1. unfold Encoded.builder_bind, Encoded.splitCoins.
  cbn [List.find]. rewrite amount_value_toString. cbn [amount_value].
  destruct (Encoded.is_u64 (of_integer price)); [|done].
  by destruct (Encoded.is_u64 royalty).
Qed.

Lemma purchase_encoded signer from sword w k lo lf ro rc :
  (getKiosk signer true w).1 = Ok (Some k) →
  objects w !! listing_field_id from sword false = Some lo →
  stored_content lo = KioskListingParsedData lf →
  objects w !! royalty_field_id = Some ro →
  stored_content ro = RoyaltyRuleConfigDFParsedData rc →
  Encoded.purchase signer from sword w =
    let price := parseInt (klf_value lf) in
    let royalty := royaltiesAmount price (rrc_value rc) in
    if Encoded.is_u64 (of_integer price) then
      if Encoded.is_u64 royalty then purchase signer from sword w
      else (Throw (NotU64 (AmountNumber royalty)), w)
    else (Throw (NotU64 (AmountString (toString price))), w).
Proof.
  intros Hk%getKiosk_result Hl Hlf Hr Hrc. cbv zeta.
  unfold Encoded.purchase, purchase, mbind, rpc_bind. rewrite Hk.
  unfold getObject. rewrite Hl. simpl. rewrite Hlf. simpl.
  rewrite Hr. simpl. rewrite Hrc. simpl.
  rewrite purchase_transaction_encoded.
  destruct (Encoded.is_u64 (of_integer _)); [|done].
  by destruct (Encoded.is_u64 (royaltiesAmount _ _)).
Qed.



(** *** The royalty, the ledger and the listing price *)


(** X12: once the three lookups have succeeded, with the price and the
    numbers of the royalty in the range a double holds exactly,
    [purchase] either builds its transaction or throws while building it.
    When the royalty is a u64, the outcome is the ledger's: the response
    when the effects report success, "Something went wrong purchasing" on
    any other status or on missing effects; either way the transaction
    has been submitted and the store is the one the ledger left.  When
    the royalty is no u64, a fraction or [NaN], the split throws, nothing
    is submitted and the world is as it was. *)
Theorem purchase_builds_then_follows_the_ledger signer from sword w k lo lf ro rc p :
  (getKiosk signer true w).1 = Ok (Some k) →
  objects w !! listing_field_id from sword false = Some lo →
  stored_content lo = KioskListingParsedData lf →
  objects w !! royalty_field_id = Some ro →
  stored_content ro = RoyaltyRuleConfigDFParsedData rc →
  parseInt (klf_value lf) = Some p →
  Encoded.exactly_representable p →
  Encoded.exactly_representable (p * Z.of_N (amount_bp (rrc_value rc))) →
  (∀ m, parseInt (min_amount (rrc_value rc)) = Some m → Encoded.exactly_representable m) →
  let royalty := royaltiesAmount (parseInt (klf_value lf)) (rrc_value rc) in
  let outcome := execute (settlement k from sword lf rc) signer (objects w) in
  (Encoded.is_u64 royalty = true →
   (effects outcome.1 = Some success →
    (Encoded.purchase signer from sword w).1 = Ok outcome.1) ∧
   (effects outcome.1 ≠ Some success →
    (Encoded.purchase signer from sword w).1 = Throw (PurchaseFailed outcome.1)) ∧
   objects (Encoded.purchase signer from sword w).2 = outcome.2 ∧
   submitted (Encoded.purchase signer from sword w).2
     = submitted w ++ [(settlement k from sword lf rc, signer)]) ∧
  (Encoded.is_u64 royalty = false →
   Encoded.purchase signer from sword w = (Throw (NotU64 (AmountNumber royalty)), w)).
Proof.
  intros Hk Hl Hlf Hr Hrc Hp Hexact _ _ royalty outcome.
  rewrite (purchase_encoded _ _ _ _ _ _ _ _ _ Hk Hl Hlf Hr Hrc). cbv zeta.
  fold royalty. rewrite Hp. cbn [of_integer].
  rewrite (is_u64_exactly_representable p Hexact).
  split; intros ->; [|done].
  rewrite (purchase_result _ _ _ _ _ _ _ _ _ Hk Hl Hlf Hr Hrc). cbv zeta. simpl.
  fold outcome. repeat split.
  - intros Hok. by rewrite bool_decide_eq_true_2.
  - intros Hno. by rewrite bool_decide_eq_false_2.
Qed.

(** *** [placeAndListInKiosk] *)

Lemma placeAndListInKiosk_build k sword price :
  Encoded.build (amount ← Encoded.pure_u64 price;
                 _ ← Encoded.moveCall (kiosk_target "place_and_list")
                       [ObjectArg (id k); ObjectArg (capId k); ObjectArg sword; amount]
                       [Sword_type];
                 mret tt) =
    if Encoded.is_u64 price then Ok (place_and_list k sword price)
    else Throw (NotU64 (AmountNumber price)).
Proof.
  unfold Encoded.build, mbind, Encoded.builder_bind, Encoded.pure_u64.
  by destruct (Encoded.is_u64 price).
Qed.

Lemma placeAndListInKiosk_encoded signer given found sword price w :
  (match given with
   | Some k => Some k = Some found
   | None => (getKiosk signer false w).1 = Ok (Some found)
   end) →
  Encoded.placeAndListInKiosk signer given sword price w =
    if Encoded.is_u64 price then placeAndListInKiosk signer given sword price w
    else (Throw (NotU64 (AmountNumber price)), w).
Proof.
  intros Hfound.
  assert (match given with Some k => mret (Some k) | None => getKiosk signer false end w
          = (Ok (Some found), w)) as Hkiosk.
  { destruct given as [k|]; [by injection Hfound as ->|by apply getKiosk_result]. }
  unfold Encoded.placeAndListInKiosk. unfold mbind at 1. unfold rpc_bind.
  rewrite Hkiosk, placeAndListInKiosk_build.
  destruct (Encoded.is_u64 price); [|done].
  symmetry. unfold placeAndListInKiosk. unfold mbind at 1. unfold rpc_bind.
  by rewrite Hkiosk.
Qed.

(** X14: [placeAndListInKiosk] looks for a kiosk first: it takes the one
    it is given, without looking anything up; given none, the kiosk found
    for the signer's plain [KioskOwnerCap]; and when the signer owns no
    such capability, a personal one not counting, it throws "No kiosk for
    address ..." and submits nothing.  With a kiosk at hand it lists there
    when the price is a u64, and when the price is none, a fraction, a
    negative number, [NaN] or one past [2^64 - 1], the builder throws and
    nothing is submitted. *)
Theorem placeAndListInKiosk_kiosk_and_price signer sword price w :
  (Encoded.is_u64 price = true →
   (∀ k, submitted (Encoded.placeAndListInKiosk signer (Some k) sword price w).2
           = submitted w ++ [(place_and_list k sword price, signer)]) ∧
   (∀ k, (getKiosk signer false w).1 = Ok (Some k) →
         submitted (Encoded.placeAndListInKiosk signer None sword price w).2
           = submitted w ++ [(place_and_list k sword price, signer)])) ∧
  (Encoded.is_u64 price = false →
   (∀ k, Encoded.placeAndListInKiosk signer (Some k) sword price w
           = (Throw (NotU64 (AmountNumber price)), w)) ∧
   (∀ k, (getKiosk signer false w).1 = Ok (Some k) →
         Encoded.placeAndListInKiosk signer None sword price w
           = (Throw (NotU64 (AmountNumber price)), w))) ∧
  (holds_none w signer KioskOwnerCap_type →
   Encoded.placeAndListInKiosk signer None sword price w
     = (Throw (NoKioskForAddress signer), w) ∧
   message (NoKioskForAddress signer) = "No kiosk for address " +:+ signer).
Proof.
  split; [|split].
  - intros Hprice. split.
    + intros k. rewrite (placeAndListInKiosk_encoded signer (Some k) k) by done.
      rewrite Hprice. by apply placeAndListInKiosk_in.
    + intros k Hk. rewrite (placeAndListInKiosk_encoded signer None k) by done.
      rewrite Hprice. by apply placeAndListInKiosk_in.
  - intros Hprice. split.
    + intros k. rewrite (placeAndListInKiosk_encoded signer (Some k) k) by done.
      by rewrite Hprice.
    + intros k Hk. rewrite (placeAndListInKiosk_encoded signer None k) by done.
      by rewrite Hprice.
  - intros Hnone. split; [|done].
    unfold Encoded.placeAndListInKiosk. unfold mbind at 1. unfold rpc_bind.
    by rewrite (getKiosk_none signer false w Hnone).
Qed.

End facts.

(** *** The theorems at work on the sample markets *)



Lemma purchase_builds_then_follows_the_ledger_witness :
  (@Encoded.purchase rejecting_env Samples.buyer Samples.seller_kiosk Samples.sword
     Samples.market).1
    = Throw (PurchaseFailed {| digest := "Dg2"; effects := Some failure |}) ∧
  @Encoded.purchase Samples.sample_env Samples.buyer Samples.seller_kiosk Samples.sword
    Encoded.fractional_market
    = (Throw (NotU64 (AmountNumber
                        (royaltiesAmount (parseInt "150")
                           {| amount_bp := 250; min_amount := "2" |}))),
       Encoded.fractional_market).
Proof.
  split.
  - destruct (@purchase_builds_then_follows_the_ledger rejecting_env Samples.buyer
                Samples.seller_kiosk Samples.sword Samples.market Samples.sample_kiosk
                (Samples.listing_object false "100")
                {| klf_id := @listing_field_id Samples.sample_env
                               Samples.seller_kiosk Samples.sword false;
                   klf_name := {| listing_id := Samples.sword; is_exclusive := false |};
                   klf_value := "100" |}
                (Samples.royalty_object 200 "5")
                {| rrc_id := @royalty_field_id Samples.sample_env;
                   rrc_value := {| amount_bp := 200; min_amount := "5" |} |}
                100%Z)
      as [Hbuilt _].
    + vm_compute. reflexivity.
    + vm_compute. reflexivity.
    + reflexivity.
    + vm_compute. reflexivity.
    + reflexivity.
    + vm_compute. reflexivity.
    + unfold Encoded.exactly_representable. lia.
    + unfold Encoded.exactly_representable. simpl. lia.
    + intros m Hm. vm_compute in Hm. injection Hm as <-.
      unfold Encoded.exactly_representable. lia.
    + destruct Hbuilt as (_ & Hfailed & _); [vm_compute; reflexivity|].
      apply Hfailed. discriminate.
  - destruct (@purchase_builds_then_follows_the_ledger Samples.sample_env Samples.buyer
                Samples.seller_kiosk Samples.sword Encoded.fractional_market
                Samples.sample_kiosk
                (Samples.listing_object false "150")
                {| klf_id := @listing_field_id Samples.sample_env
                               Samples.seller_kiosk Samples.sword false;
                   klf_name := {| listing_id := Samples.sword; is_exclusive := false |};
                   klf_value := "150" |}
                (Samples.royalty_object 250 "2")
                {| rrc_id := @royalty_field_id Samples.sample_env;
                   rrc_value := {| amount_bp := 250; min_amount := "2" |} |}
                150%Z)
      as [_ Hthrown].
    + vm_compute. reflexivity.
    + vm_compute. reflexivity.
    + reflexivity.
    + vm_compute. reflexivity.
    + reflexivity.
    + vm_compute. reflexivity.
    + unfold Encoded.exactly_representable. lia.
    + unfold Encoded.exactly_representable. simpl. lia.
    + intros m Hm. vm_compute in Hm. injection Hm as <-.
      unfold Encoded.exactly_representable. lia.
    + apply Hthrown. vm_compute. reflexivity.
Defined.

Lemma placeAndListInKiosk_kiosk_and_price_witness :
  submitted (@Encoded.placeAndListInKiosk Samples.sample_env seller None Samples.sword
               (Num (Qc_of_Z 100)) seller_world).2
    = [(@place_and_list Samples.sample_env seller_kiosk_data Samples.sword
          (Num (Qc_of_Z 100)), seller)] ∧
  @Encoded.placeAndListInKiosk Samples.sample_env seller None Samples.sword
    (Num (Q2Qc (201 # 2))) seller_world
    = (Throw (NotU64 (AmountNumber (Num (Q2Qc (201 # 2))))), seller_world) ∧
  @Encoded.placeAndListInKiosk Samples.sample_env Samples.buyer None Samples.sword
    (Num (Qc_of_Z 100)) seller_world
    = (Throw (NoKioskForAddress Samples.buyer), seller_world).
Proof.
  split; [|split].
  - destruct (@placeAndListInKiosk_kiosk_and_price Samples.sample_env seller Samples.sword
                (Num (Qc_of_Z 100)) seller_world) as (Hu64 & _ & _).
    destruct Hu64 as [_ Hfound]; [reflexivity|].
    apply (Hfound seller_kiosk_data). vm_compute. reflexivity.
  - destruct (@placeAndListInKiosk_kiosk_and_price Samples.sample_env seller Samples.sword
                (Num (Q2Qc (201 # 2))) seller_world) as (_ & Hfraction & _).
    destruct Hfraction as [_ Hfound]; [reflexivity|].
    apply (Hfound seller_kiosk_data). vm_compute. reflexivity.
  - destruct (@placeAndListInKiosk_kiosk_and_price Samples.sample_env Samples.buyer
                Samples.sword (Num (Qc_of_Z 100)) seller_world) as (_ & _ & Hnone).
    apply Hnone. unfold holds_none. apply (bool_decide_unpack _). vm_compute. exact I.
Defined.

End EncodedFacts.
